(** * Avatar API: a shallow embedding of [main.py] and its properties

    [main.py] holds two deployments of the same service one after the
    other: lines 1-231 (called the first variant below, module [V1]) and
    lines 233-358 (the second variant, module [V2]).  They share the
    [Avatar] record, the base URL and the text of the listing and lookup
    handlers; they differ in [Avatar.from_filename], in the hardcoded
    filename list, in the default and the bound of [limit] and in the
    set of routes.  Each variant is modelled as it is written; when the
    file is loaded as one module the definitions of the second variant
    replace those of the first that bear the same name.

    Python values are modelled as follows: [str] as [string] (sequences
    of 8-bit characters, [str.lower] acting on the letters A-Z), [int] as
    [Z], [list] as [list], the [dict] index as a [gmap], the [set] of file
    types as a [gset], a JSON object literal as the list of its
    key/value pairs in the order they are written.  Two library calls
    are modelled by what they return: [urljoin] on plain filenames, and
    [random.sample] with the draws of the generator as a parameter. *)

From Stdlib Require Import ZArith Ascii String List Lia Permutation.
From stdpp Require Import gmap strings list fin_maps.

Local Open Scope Z_scope.

(** ** Python string and list primitives used by the handlers *)

Module Py.

(** [c.lower()] on one character. *)
Definition lower_char (c : ascii) : ascii :=
  let n := nat_of_ascii c in
  if ((65 <=? n)%nat && (n <=? 90)%nat)%bool then ascii_of_nat (n + 32) else c.

(** [s.lower()] on text of the characters 0 to 127, where it maps the
    letters A-Z and nothing else; the lowering of other characters by
    [str.lower] is not modelled. *)
Fixpoint lower (s : string) : string :=
  match s with
  | EmptyString => EmptyString
  | String c s' => String (lower_char c) (lower s')
  end.

(** [sub in s]: [sub] occurs in [s] as a contiguous substring. *)
Fixpoint contains (sub s : string) : bool :=
  String.prefix sub s ||
  match s with
  | EmptyString => false
  | String _ s' => contains sub s'
  end.

(** Left-to-right scan of [s.replace(old, new)] for a non-empty [old];
    [skip] counts the characters of a match still to be dropped. *)
Fixpoint replace_scan (old new : string) (skip : nat) (s : string) : string :=
  match s with
  | EmptyString => EmptyString
  | String c s' =>
      match skip with
      | S k => replace_scan old new k s'
      | O =>
          if String.prefix old s
          then String.append new (replace_scan old new (String.length old - 1) s')
          else String c (replace_scan old new 0 s')
      end
  end.

(** [s.replace("", new)] puts [new] before every character and at the end. *)
Fixpoint intersperse (new s : string) : string :=
  match s with
  | EmptyString => new
  | String c s' => String.append new (String c (intersperse new s'))
  end.

(** [s.replace(old, new)] *)
Definition replace (old new s : string) : string :=
  match old with
  | EmptyString => intersperse new s
  | String _ _ => replace_scan old new 0 s
  end.

(** [s.split(sep)] for a one-character separator: the pieces between
    the separators, always at least one piece. *)
Fixpoint split (sep : ascii) (s : string) : list string :=
  match s with
  | EmptyString => [EmptyString]
  | String c s' =>
      if Ascii.eqb c sep then EmptyString :: split sep s'
      else match split sep s' with
           | piece :: pieces => String c piece :: pieces
           | [] => [String c EmptyString]
           end
  end.

(** [pieces[-1]] on the result of a split, which is never empty. *)
Definition last_piece (pieces : list string) : string :=
  List.last pieces EmptyString.

(** One bound of a slice, as [slice.indices] normalises it. *)
Definition slice_bound (len i : Z) : Z :=
  if i <? 0 then Z.max (i + len) 0 else Z.min i len.

(** [l[i:j]] *)
Definition slice {A : Type} (l : list A) (i j : Z) : list A :=
  let len := Z.of_nat (List.length l) in
  let start := slice_bound len i in
  let stop := slice_bound len j in
  firstn (Z.to_nat (stop - start)) (skipn (Z.to_nat start) l).

End Py.

(** ** Data model *)

(** [@dataclass class Avatar] *)
Record Avatar : Type := mkAvatar { name : string; imageurl : string }.

Global Instance Avatar_eq_dec : EqDecision Avatar.
Proof. solve_decision. Defined.

Definition BASE_AVATAR_URL : string :=
  "http://www.tam-files.toko-aplikasi.my.id/images/avatars/".

(** The relative references on which [urllib.parse.urljoin] is modelled:
    one path segment, with no scheme, authority, query, fragment or
    parameter delimiter, no tab or line break, no leading control
    character or space, and not a dot segment. *)
Definition reserved_char (c : ascii) : bool :=
  existsb (Ascii.eqb c) ["/"; ":"; "?"; "#"; ";"; "009"; "010"; "013"]%char.

Fixpoint no_reserved (s : string) : bool :=
  match s with
  | EmptyString => true
  | String c s' => negb (reserved_char c) && no_reserved s'
  end.

Definition plain_segment (s : string) : bool :=
  match s with
  | EmptyString => false
  | String c _ =>
      (32 <? nat_of_ascii c)%nat && no_reserved s
      && negb (String.eqb s ".") && negb (String.eqb s "..")
  end.

(** [urljoin(base, url)] of the standard library, for a [base] whose
    path ends in a slash (as [BASE_AVATAR_URL] does) and a [url] that is
    a [plain_segment]: the segment is appended to the base.  On other
    references the library resolves dot segments, drops leading spaces,
    tabs and line breaks, reads a scheme or an authority, or raises;
    none of this is modelled, and the statements about image URLs and
    about catalogs built from arbitrary filenames are made for plain
    segments only. *)
Definition urljoin (base url : string) : string := String.append base url.

(** The module-level globals [avatar_cache] and [avatar_dict]. *)
Record Globals : Type := mkGlobals {
  avatar_cache : list Avatar;
  avatar_dict : gmap string Avatar
}.

(** Their values before the startup event: [[]] and [{}]. *)
Definition initial : Globals := mkGlobals [] ∅.

(** [{a.name.lower(): a for a in cache}]: the entries are written in
    list order, a later one replacing an earlier one with the same key. *)
Definition build_dict (cache : list Avatar) : gmap string Avatar :=
  foldl (fun d a => <[Py.lower (name a) := a]> d) ∅ cache.

(** ** What a handler produces *)

(** A JSON object literal: its key/value pairs in the order written. *)
Definition json_object : Type := list (string * string).

Inductive outcome (A : Type) : Type :=
| Return (body : A)
    (** the handler returns [body] *)
| HTTPException (status_code : Z) (detail : option string)
    (** [raise HTTPException(status_code=..., detail=...)]; [None] when
        no [detail] is passed *)
| RequestValidationError (params : list string)
    (** a [Query(...)] constraint of the signature is violated: the
        framework answers before the body runs *)
| Propagated (exn : string).
    (** an exception of a library call that the handler does not catch *)

Arguments Return {A} body.
Arguments HTTPException {A} status_code detail.
Arguments RequestValidationError {A} params.
Arguments Propagated {A} exn.

(** The object literal [{"name": ..., "imageurl": ..., "filename": ...}]
    written at lines 139-143, 166-170, 190-194, 325-329 and 347-351. *)
Definition avatar_record (avatar : Avatar) : json_object :=
  [ ("name", name avatar);
    ("imageurl", imageurl avatar);
    ("filename", Py.last_piece (Py.split "/" (imageurl avatar))) ]%string.

(** [[a for a in avatars if sub in a.name.lower()]] *)
Definition name_matches (sub : string) (avatars : list Avatar) : list Avatar :=
  List.filter (fun a => Py.contains sub (Py.lower (name a))) avatars.

(** The search filter of lines 128-133 and 316-320; [if search:] holds
    for a string that is present and not empty. *)
Definition searched (g : Globals) (search : option string) : list Avatar :=
  let avatars := avatar_cache g in
  match search with
  | Some (String _ _ as search) =>
      let search_lower := Py.lower search in
      name_matches search_lower avatars
  | _ => avatars
  end.

(** The body of [get_all_avatars] (lines 128-145) and of [get_avatars]
    (lines 316-331), which are the same text. *)
Definition list_body (g : Globals) (skip limit : Z) (search : option string)
  : list json_object :=
  let avatars := searched g search in
  let paginated := Py.slice avatars skip (skip + limit) in
  map avatar_record paginated.

(** The constraints [skip: Query(_, ge=0)] and
    [limit: Query(_, ge=1, le=max_limit)]. *)
Definition violated (max_limit skip limit : Z) : list string :=
  (if 0 <=? skip then [] else ["skip"%string])
  ++ (if (1 <=? limit) && (limit <=? max_limit) then [] else ["limit"%string]).

Definition list_handler (default_limit max_limit : Z) (g : Globals)
    (skip limit : option Z) (search : option string) : outcome (list json_object) :=
  let skip := default 0 skip in
  let limit := default default_limit limit in
  match violated max_limit skip limit with
  | [] => Return (list_body g skip limit search)
  | params => RequestValidationError params
  end.

(** The two lookups of lines 154-161 and 336-342: the index first, then
    the first record whose lowercased name contains the lowercased query. *)
Definition resolve (g : Globals) (avatar_name : string) : option Avatar :=
  match avatar_dict g !! Py.lower avatar_name with
  | Some avatar => Some avatar
  | None =>
      let matches := name_matches (Py.lower avatar_name) (avatar_cache g) in
      match matches with
      | avatar :: _ => Some avatar
      | [] => None
      end
  end.

(** The body of [get_avatar_by_name] (lines 154-170) and of [get_avatar]
    (lines 336-351), which are the same text. *)
Definition lookup_body (g : Globals) (avatar_name : string) : outcome json_object :=
  match resolve g avatar_name with
  | None =>
      HTTPException 404
        (Some (String.append "Avatar '" (String.append avatar_name "' not found")))
  | Some avatar => Return (avatar_record avatar)
  end.

(** ** [random.sample]

    The generator is a parameter: [rng i] is what the [i]-th draw
    returns before it is reduced to the range asked for.  The library
    draws from a shrinking pool (or, for some sizes, redraws until it
    meets a fresh position); either way it returns [k] elements at
    pairwise distinct positions.  The model is the pool scheme:
    [j = randbelow(n - i); result[i] = pool[j]; pool[j] = pool[n - i - 1]]. *)
Fixpoint sample_pool {A : Type} (rng : nat → nat) (i : nat) (pool : list A) (k : nat)
  : list A :=
  match k with
  | O => []
  | S k' =>
      let n := List.length pool in
      let j := (rng i mod n)%nat in
      match pool !! j, pool !! (n - 1)%nat with
      | Some x, Some y => x :: sample_pool rng (S i) (take (n - 1) (<[j := y]> pool)) k'
      | _, _ => []
      end
  end.

(** [random.sample(population, k)]; [None] is its [ValueError] for a
    [k] that is negative or larger than the population. *)
Definition random_sample {A : Type} (rng : nat → nat) (population : list A) (k : Z)
  : option (list A) :=
  if (0 <=? k) && (k <=? Z.of_nat (List.length population))
  then Some (sample_pool rng 0 population (Z.to_nat k))
  else None.

(** ** The upstream fetch of the image proxy *)

(** What [httpx] hands back for a request that completed. *)
Record HttpxResponse : Type := mkHttpxResponse {
  status : Z;
  content_type : string;
  content : string
}.

(** [Response(content=..., media_type=...)] *)
Record Response : Type := mkResponse {
  body_bytes : string;
  media_type : string
}.

(** The value of [get_avatar_stats]. *)
Record Stats : Type := mkStats {
  total_avatars : Z;
  base_url : string;
  file_types : gset string;
  sample_avatars : list json_object
}.

(** A JSON value of the health report: a string or an integer. *)
Inductive json_value : Type :=
| JStr (s : string)
| JInt (n : Z).

(** *** First variant, lines 1-231 *)
Module V1.

(** [Avatar.from_filename], lines 18-23 *)
Definition from_filename (filename : string) : Avatar :=
  let name := Py.replace ".jpeg" "" (Py.replace ".jpg" "" (Py.replace ".png" "" filename)) in
  let imageurl := urljoin BASE_AVATAR_URL filename in
  mkAvatar name imageurl.

Definition filenames : list string := [
  "Abraham Baker.png"; "Adem Lane.png"; "Adil Floyd.png";
  "Adriana O'Sullivan.png"; "Alec Whitten.png"; "Alesha Barry.png";
  "Ali Mahdi.png"; "Aliah Lane.png"; "Alisa Hester.png";
  "Amanda Lowery.png"; "Amelie Bennett.png"; "Amelie Laurent.png";
  "Ammar Foley.png"; "Anaiah Whitten.png"; "Andi Lane.png";
  "Angelica Wallace.png"; "Anita Cruz.png"; "Ashton Blackwell.png";
  "Ashwin Santiago.png"; "Aston Hood.png"; "Ava Bentley.png";
  "Ava Wright.png"; "Ayah Wilkinson.png"; "Aysha Becker.png";
  "Bailey Richards.png"; "Bec Ferguson.png"; "Belle Woods.png";
  "Benedict Doherty.png"; "Billie Wright.png"; "Blake Riley.png";
  "Brianna Ware.png"; "Byron Robertson.png"; "Caitlyn King.png";
  "Cameron Yang.png"; "Candice Wu.png"; "Clifford Jennings.png";
  "Cohen Lozano.png"; "Courtney Turner.png"; "Danyal Lester.png";
  "Demi Wilkinson.png"; "Dillan Nguyen.png"; "Drew Cano.png";
  "Eduard Franz.png"; "Elena Owens.png"; "Elisa Nishikawa.png";
  "Elsie Roy.png"; "Erica Wyatt.png"; "Ethan Campbell.png";
  "Ethan Valdez.png"; "Eva Bond.png"; "Eve Leroy.png";
  "Fergus Gray.png"; "Fleur Cook.png"; "Florence Shaw.png";
  "Frank Whitaker.png"; "Franklin Mays.png"; "Freya Browning.png";
  "Genevieve Mclean.png"; "Harriet Rojas.png"; "Harry Bender.png";
  "Hasan Johns.png"; "Herbert Fowler.png"; "Isla Allison.png";
  "Isobel Carroll.png"; "Isobel Fuller.png"; "Jackson Reed.png";
  "Jay Shepard.png"; "Jaya Willis.png"; "Jayden Moss.png";
  "Jessie Meyton.png"; "Jonathan Kelly.png"; "Jordan Burgess.png";
  "Joshua Wilson.png"; "Julius Vaughan.png"; "Kaden Scott.png";
  "Kaitlin Hale.png"; "Kari Rasmussen.png"; "Kate Morrison.png";
  "Katherine Moss.png"; "Katy Fuller.png"; "Kelly Williams.png";
  "Kelsey Lowe.png"; "Koray Okumus.png"; "Kyla Clay.png";
  "Lana Steiner.png"; "Levi Rocha.png"; "Leyton Fields.png";
  "Liam Hood.png"; "Lily-Rose Chedjou.png"; "Loki Bright.png";
  "Lola Sanders.png"; "Lori Bryson.png"; "Lucy Bond.png";
  "Lulu Meyers.png"; "Luqman Anthony.png"; "Lyle Kauffman.png";
  "Maddison Gillespie.png"; "Madeleine Pitts.png"; "Marco Gross.png";
  "Marco Kelly.png"; "Marvin Robbins.png"; "Mathilde Lewis.png";
  "Maxwell Tan.png"; "Mikey Lawrence.png"; "Mollie Hall.png";
  "Molly Vaughan.png"; "Nala Goins.png"; "Natali Craig.png";
  "Nic Fassbender.png"; "Nicola Harris.png"; "Nicolas Trevino.png";
  "Nicolas Wang.png"; "Nikolas Gibbons.png"; "Noah Pierre.png";
  "Noel Baldwin.png"; "Olivia Rhye.png"; "Olly Schroeder.png";
  "Orlando Diggs.png"; "Owen Garcia.png"; "Owen Harding.png";
  "Phoenix Baker.png"; "Pippa Wilkinson.png"; "Priya Shepard.png";
  "Rachael Strong.png"; "Rayhan Zua.png"; "Rene Wells.png";
  "Rhea Levine.png"; "Rhianna Shepard.png"; "Riley O'Moore.png";
  "Rory Huff.png"; "Rosalee Melvin.png"; "Sally Mason.png";
  "Sarah Page.png"; "Scott Clayton.png"; "Sienna Hewitt.png";
  "Sophia Perez.png"; "Stefan Sears.png"; "Youssef Roberson.png";
  "Zahir Mays.png"; "Zahra Christensen.png"; "Zaid Schwartz.png";
  "Zara Bush.png"; "Zaynab Donnelly.png"; "Zuzanna Burke.png"
]%string.

(** The startup event run on an arbitrary filename list: both globals
    are assigned, whatever they held before. *)
Definition load_from (files : list string) (g : Globals) : Globals :=
  let cache := map from_filename files in
  mkGlobals cache (build_dict cache).

(** [load_avatars], lines 46-108 *)
Definition load_avatars (g : Globals) : Globals := load_from filenames g.

(** [get_all_avatars], lines 115-145 *)
Definition get_all_avatars : Globals → option Z → option Z → option string
    → outcome (list json_object) :=
  list_handler 100 200.

(** [get_avatar_by_name], lines 147-170 *)
Definition get_avatar_by_name : Globals → string → outcome json_object :=
  lookup_body.

(** [get_random_avatars], lines 172-196 *)
Definition get_random_avatars (rng : nat → nat) (g : Globals) (count : Z)
  : outcome (list json_object) :=
  if count <? 1 then HTTPException 400 (Some "Count must be at least 1"%string)
  else
    let count := if count >? 50 then 50 else count in
    match random_sample rng (avatar_cache g)
            (Z.min count (Z.of_nat (List.length (avatar_cache g)))) with
    | Some selected => Return (map avatar_record selected)
    | None => Propagated "ValueError"
    end.

(** [get_avatar_stats], lines 198-209 *)
Definition get_avatar_stats (g : Globals) : Stats :=
  {| total_avatars := Z.of_nat (List.length (avatar_cache g));
     base_url := BASE_AVATAR_URL;
     file_types :=
       list_to_set
         (map (fun url => Py.last_piece (Py.split "." url))
              (map imageurl (avatar_cache g)));
     sample_avatars :=
       map (fun a => [("name", name a); ("url", imageurl a)]%string)
           (Py.slice (avatar_cache g) 0 5) |}.

(** [get_avatar_image], lines 211-223.  [client_get url] is the result
    of [await client.get(url)]: the response, or the exception raised. *)
Definition get_avatar_image (client_get : string → string + HttpxResponse)
    (g : Globals) (avatar_name : string) : outcome Response :=
  match avatar_dict g !! Py.lower avatar_name with
  | None => HTTPException 404 None
  | Some avatar =>
      match client_get (imageurl avatar) with
      | inl exn => Propagated exn
      | inr response => Return (mkResponse (content response) "image/png")
      end
  end.

(** [health_check], lines 225-231 *)
Definition health_check (g : Globals) : list (string * json_value) :=
  [ ("status", JStr "healthy");
    ("avatars_loaded", JInt (Z.of_nat (List.length (avatar_cache g)))) ].

End V1.

(** *** Second variant, lines 233-358 *)
Module V2.

(** [Avatar.from_filename], lines 250-254 *)
Definition from_filename (filename : string) : Avatar :=
  let name := Py.replace ".png" "" filename in
  let imageurl := urljoin BASE_AVATAR_URL (Py.replace " " "%20" filename) in
  mkAvatar name imageurl.

Definition FILENAMES : list string := [
  "Abraham Baker.png";
  "Adem Lane.png";
  "Adil Floyd.png";
  "Adriana O'Sullivan.png";
  "Alec Whitten.png"
]%string.

Definition load_from (files : list string) (g : Globals) : Globals :=
  let cache := map from_filename files in
  mkGlobals cache (build_dict cache).

(** [load_avatars], lines 285-291 *)
Definition load_avatars (g : Globals) : Globals := load_from FILENAMES g.

(** [get_avatars], lines 309-331 *)
Definition get_avatars : Globals → option Z → option Z → option string
    → outcome (list json_object) :=
  list_handler 20 100.

(** [get_avatar], lines 333-351 *)
Definition get_avatar : Globals → string → outcome json_object :=
  lookup_body.

(** [health_check], lines 294-301 *)
Definition health_check (g : Globals) : list (string * json_value) :=
  [ ("status", JStr "healthy");
    ("avatars_loaded", JInt (Z.of_nat (List.length (avatar_cache g))));
    ("service", JStr "avatar-api") ].

End V2.

(** ** Vocabulary of the specification *)

(** The value stored under a key of a JSON object. *)
Definition field (key : string) (o : json_object) : option string :=
  snd <$> List.find (λ kv, String.eqb (fst kv) key) o.

(** Exact match: case-insensitive equality of the query and a name. *)
Definition exact_match (q : string) (a : Avatar) : Prop :=
  Py.lower (name a) = Py.lower q.

(** Partial match: case-insensitive substring containment. *)
Definition partial_match (q : string) (a : Avatar) : Prop :=
  ∃ u v, Py.lower (name a) = u +:+ Py.lower q +:+ v.

(** [a] is the first, respectively the last, record of the list, in
    list order, that satisfies [P]. *)
Definition first_such (P : Avatar → Prop) (cache : list Avatar) (a : Avatar) : Prop :=
  ∃ pre post, cache = pre ++ a :: post ∧ P a ∧ ∀ b, b ∈ pre → ¬ P b.

Definition last_such (P : Avatar → Prop) (cache : list Avatar) (a : Avatar) : Prop :=
  ∃ pre post, cache = pre ++ a :: post ∧ P a ∧ ∀ b, b ∈ post → ¬ P b.

(** A string without the separator is one piece. *)
Fixpoint free_of (sep : ascii) (s : string) : bool :=
  match s with
  | EmptyString => true
  | String c s' => negb (Ascii.eqb c sep) && free_of sep s'
  end.

(** The names carried by a page. *)
Definition names_of (page : list json_object) : list (option string) :=
  map (field "name") page.

(** The text after the last dot of a URL: [url.split('.')[-1]]. *)
Definition extension_of (url : string) : string := Py.last_piece (Py.split "." url).

(** What the specification asks of [GetByName]: the record the index
    holds for the lowercased query; failing that the first record, in
    catalog order, that contains the query; failing that a 404 whose
    detail names the query. *)
Inductive GetByName_spec (g : Globals) (q : string) : outcome json_object → Prop :=
| found_exact (a : Avatar) :
    avatar_dict g !! Py.lower q = Some a →
    GetByName_spec g q (Return (avatar_record a))
| found_partial (a : Avatar) :
    avatar_dict g !! Py.lower q = None →
    first_such (partial_match q) (avatar_cache g) a →
    GetByName_spec g q (Return (avatar_record a))
| not_found :
    avatar_dict g !! Py.lower q = None →
    (∀ a, a ∈ avatar_cache g → ¬ partial_match q a) →
    GetByName_spec g q (HTTPException 404 (Some ("Avatar '" +:+ q +:+ "' not found"))).

Definition olivia_rhye : Avatar :=
  mkAvatar "Olivia Rhye" (BASE_AVATAR_URL +:+ "Olivia Rhye.png").

Definition adem_lane : Avatar :=
  mkAvatar "Adem Lane" (BASE_AVATAR_URL +:+ "Adem Lane.png").

(** The catalog of the end-to-end example. *)
Definition two_files : list string := ["Abraham Baker.png"; "Adem Lane.png"].

(** From the words of the specification: the filename without its
    extension, when it ends with a recognized one. *)
Definition ends_with (suffix s : string) : bool :=
  String.prefix (String.rev suffix) (String.rev s).

Definition strip_extension (recognized : list string) (filename : string) : string :=
  match List.find (λ ext, ends_with ext filename) recognized with
  | Some ext => String.substring 0 (String.length filename - String.length ext) filename
  | None => filename
  end.

(** The globals are consistent when the index is the one built from
    the list, as it is after the startup event. *)
Definition consistent (g : Globals) : Prop :=
  avatar_dict g = build_dict (avatar_cache g).

(** The key under which a record is indexed. *)
Definition key_of (a : Avatar) : string := Py.lower (name a).

(** The value stored under a key of a health report. *)
Definition health_field (key : string) (o : list (string * json_value))
  : option json_value :=
  snd <$> List.find (λ kv, String.eqb (fst kv) key) o.

(** ** How the framework answers an exception

    [HTTPException.__init__] of Starlette, which the class of FastAPI
    extends, replaces a missing [detail] by the reason phrase of the
    status code, [http.HTTPStatus(status_code).phrase], and the default
    exception handler answers with that status code and the JSON body
    [{"detail": detail}].  The phrases are tabulated for the two codes
    the handlers raise. *)
Definition status_phrase (code : Z) : option string :=
  if code =? 400 then Some "Bad Request"
  else if code =? 404 then Some "Not Found"
  else None.

Definition exception_detail (code : Z) (detail : option string) : option string :=
  match detail with
  | Some d => Some d
  | None => status_phrase code
  end.

Definition exception_body (code : Z) (detail : option string) : option json_object :=
  (λ d, [("detail", d)]) <$> exception_detail code detail.

(** The body of the answer to an outcome that is an HTTP exception. *)
Definition error_body {A : Type} (o : outcome A) : option json_object :=
  match o with
  | HTTPException code detail => exception_body code detail
  | _ => None
  end.

(** Text of the characters 0 to 127, on which [Py.lower] is [str.lower]
    and on which lowering commutes with concatenation. *)
Fixpoint is_ascii (s : string) : bool :=
  match s with
  | EmptyString => true
  | String c s' => (nat_of_ascii c <? 128)%nat && is_ascii s'
  end.

(** ** Sanity checks of the primitives *)

Example lower_example : Py.lower "OLIVIA Rhye-2" = "olivia rhye-2".
Proof. reflexivity. Qed.

Example contains_example :
  Py.contains "lane" "adem lane" = true ∧ Py.contains "ana" "amanda lowery" = false.
Proof. split; reflexivity. Qed.

Example replace_example :
  Py.replace ".png" "" "a.png.png" = "a" ∧ Py.replace " " "%20" "Lily-Rose  C.png" = "Lily-Rose%20%20C.png"
  ∧ Py.replace "aa" "b" "aaaaa" = "bba".
Proof. repeat split; reflexivity. Qed.

Example split_example :
  Py.split "/" "http://h/a/b c.png" = ["http:"; ""; "h"; "a"; "b c.png"]
  ∧ Py.split "." "" = [""] ∧ Py.split "." "a." = ["a"; ""].
Proof. repeat split; reflexivity. Qed.

Example slice_example :
  Py.slice [1; 2; 3; 4; 5] 3 10 = [4; 5] ∧ Py.slice [1; 2; 3; 4; 5] (-2) 5 = [4; 5]
  ∧ Py.slice [1; 2; 3] 7 9 = [] ∧ Py.slice [1; 2; 3] 0 5 = [1; 2; 3].
Proof. repeat split; reflexivity. Qed.

Example sample_example :
  sample_pool (λ i, (3 * i + 2)%nat) 0 ["a"; "b"; "c"; "d"] 3 = ["c"; "d"; "a"].
Proof. reflexivity. Qed.

Example index_example :
  avatar_dict (V1.load_avatars initial) !! "olivia rhye" = Some olivia_rhye
  ∧ List.length (avatar_cache (V1.load_avatars initial)) = 144%nat
  ∧ List.length (avatar_cache (V2.load_avatars initial)) = 5%nat.
Proof. repeat split; vm_compute; reflexivity. Qed.

(** ** Properties of the primitives *)

Section Strings.

Lemma sapp_cons c s t : String c s +:+ t = String c (s +:+ t).
Proof. reflexivity. Qed.

Lemma sapp_nil t : "" +:+ t = t.
Proof. reflexivity. Qed.

Lemma sapp_nil_r s : s +:+ "" = s.
Proof. induction s as [|c s IH]; [done|]. by rewrite sapp_cons, IH. Qed.

Lemma sapp_assoc s t u : (s +:+ t) +:+ u = s +:+ (t +:+ u).
Proof. induction s as [|c s IH]; [done|]. by rewrite !sapp_cons, IH. Qed.

Lemma prefix_app_iff (p s : string) :
  String.prefix p s = true ↔ ∃ t, s = p +:+ t.
Proof.
  revert s. induction p as [|a p IH]; intros s; simpl.
  - split; [intros _; by exists s | by destruct s].
  - destruct s as [|b s]; simpl.
    + split; [done | by intros [t Ht]].
    + destruct (ascii_dec a b) as [->|Hab].
      * rewrite IH. split; intros [t Ht]; exists t; rewrite ?sapp_cons in *; congruence.
      * split; [done | intros [t Ht]; rewrite sapp_cons in Ht; congruence].
Qed.

Lemma contains_nil sub : Py.contains sub "" = String.prefix sub "" || false.
Proof. reflexivity. Qed.

Lemma contains_cons sub c s :
  Py.contains sub (String c s) = String.prefix sub (String c s) || Py.contains sub s.
Proof. reflexivity. Qed.

Lemma contains_app_iff (sub s : string) :
  Py.contains sub s = true ↔ ∃ u v, s = u +:+ sub +:+ v.
Proof.
  induction s as [|c s IH].
  - rewrite contains_nil, orb_false_r, prefix_app_iff. split.
    + intros [t Ht]. by exists "", t.
    + intros (u & v & Huv). destruct u; [by exists v | done].
  - rewrite contains_cons, orb_true_iff, prefix_app_iff, IH. split.
    + intros [[t Ht] | (u & v & Huv)].
      * by exists "", t.
      * exists (String c u), v. by rewrite sapp_cons, Huv.
    + intros (u & v & Huv). destruct u as [|c' u].
      * left. by exists v.
      * right. exists u, v. rewrite sapp_cons in Huv. congruence.
Qed.

Lemma split_nonempty sep s : Py.split sep s ≠ [].
Proof.
  destruct s as [|c s]; simpl; [done|].
  destruct (Ascii.eqb c sep); [done|]. by destruct (Py.split sep s).
Qed.

Lemma split_free sep s : free_of sep s = true → Py.split sep s = [s].
Proof.
  induction s as [|c s IH]; simpl; [done|].
  destruct (Ascii.eqb c sep); simpl; [done|]. intros H. by rewrite IH.
Qed.

Lemma last_cons_nonempty {A} (x : A) l d : l ≠ [] → List.last (x :: l) d = List.last l d.
Proof. by destruct l. Qed.

Lemma split_with_sep_length sep u t :
  (1 < List.length (Py.split sep (u +:+ String sep t)))%nat.
Proof.
  induction u as [|c u IHu]; rewrite ?sapp_nil, ?sapp_cons; simpl.
  - rewrite Ascii.eqb_refl. simpl. pose proof (split_nonempty sep t).
    destruct (Py.split sep t); simpl; [done | lia].
  - destruct (Ascii.eqb c sep); simpl.
    + pose proof (split_nonempty sep (u +:+ String sep t)).
      destruct (Py.split sep (u +:+ String sep t)); simpl; [done | lia].
    + destruct (Py.split sep (u +:+ String sep t)); simpl in *; lia.
Qed.

(** The last piece of a split is what follows the last separator. *)
Lemma last_piece_after sep s t :
  free_of sep t = true →
  Py.last_piece (Py.split sep (s +:+ String sep t)) = t.
Proof.
  intros Ht. unfold Py.last_piece.
  induction s as [|c s IH]; rewrite ?sapp_nil, ?sapp_cons; simpl.
  - by rewrite Ascii.eqb_refl, (split_free _ _ Ht).
  - destruct (Ascii.eqb c sep).
    + rewrite last_cons_nonempty; [done | apply split_nonempty].
    + pose proof (split_with_sep_length sep s t) as Hlen.
      destruct (Py.split sep (s +:+ String sep t)) as [|p [|p' ps]];
        simpl in Hlen; [lia..|done].
Qed.

(** The last piece holds no separator, and the string ends with it:
    the string is that piece, or a front, a separator and the piece. *)
Lemma last_piece_spec sep s :
  let f := Py.last_piece (Py.split sep s) in
  free_of sep f = true ∧ (s = f ∨ ∃ front, s = front +:+ String sep f).
Proof.
  unfold Py.last_piece. induction s as [|c s [IHfree IHend]]; simpl.
  - split; [done | by left].
  - destruct (Ascii.eqb c sep) eqn:Ec.
    + apply Ascii.eqb_eq in Ec. subst c.
      rewrite last_cons_nonempty by apply split_nonempty.
      split; [done|]. right. destruct IHend as [Hs | [front Hs]].
      * exists "". by rewrite sapp_nil, <- Hs.
      * exists (String sep front). by rewrite sapp_cons, <- Hs.
    + destruct (Py.split sep s) as [|p [|p' ps]] eqn:E; [by apply split_nonempty in E| |].
      * simpl in *. rewrite Ec. split; [done|].
        left. destruct IHend as [Hs | [front Hs]]; [by rewrite <- Hs|].
        exfalso. subst s.
        pose proof (split_with_sep_length sep front p) as Hlen.
        rewrite E in Hlen. simpl in Hlen. lia.
      * change (List.last (String c p :: p' :: ps) "") with (List.last (p' :: ps) "").
        change (List.last (p :: p' :: ps) "") with (List.last (p' :: ps) "") in IHfree, IHend.
        split; [done|]. right. destruct IHend as [Hs | [front Hs]].
        -- exfalso. rewrite Hs in E. rewrite (split_free _ _ IHfree) in E. by inversion E.
        -- exists (String c front). by rewrite sapp_cons, <- Hs.
Qed.

End Strings.

Section Lists.

Context {A : Type}.
Implicit Types l pool : list A.

(** A slice with bounds that are not negative is an offset and a
    length, both clamped to the list. *)
Lemma slice_offset_length l (i n : Z) :
  0 ≤ i → 0 ≤ n →
  Py.slice l i (i + n) = take (Z.to_nat n) (drop (Z.to_nat i) l).
Proof.
  intros Hi Hn. unfold Py.slice, Py.slice_bound.
  destruct (Z.ltb_spec i 0) as [|_]; [lia|].
  destruct (Z.ltb_spec (i + n) 0) as [|_]; [lia|].
  destruct (Z_le_gt_dec (Z.of_nat (List.length l)) i) as [Hge|Hlt].
  - rewrite (drop_ge l (Z.to_nat i)) by lia.
    rewrite (drop_ge l (Z.to_nat (Z.min _ _))) by lia.
    by rewrite !take_nil.
  - replace (i `min` Z.of_nat (List.length l)) with i by lia.
    destruct (Z_le_gt_dec n (Z.of_nat (List.length l) - i)) as [Hn'|Hn'].
    + f_equal. lia.
    + rewrite !take_ge; [done | rewrite length_drop; lia..].
Qed.

Lemma sample_pool_length rng k : ∀ i pool,
  (k ≤ List.length pool)%nat → List.length (sample_pool rng i pool k) = k.
Proof.
  induction k as [|k IH]; intros i pool Hk; simpl; [done|].
  assert (Hpos : (0 < List.length pool)%nat) by lia.
  destruct (lookup_lt_is_Some_2 pool (rng i mod List.length pool)%nat) as [x ->].
  { apply Nat.mod_upper_bound. lia. }
  destruct (lookup_lt_is_Some_2 pool (List.length pool - 1)%nat) as [y ->]; [lia|].
  simpl. rewrite IH; [done|]. rewrite length_take, length_insert. lia.
Qed.

(** One draw: the element taken and the pool left are the old pool. *)
Lemma pool_step pool j x y :
  pool !! j = Some x → pool !! (List.length pool - 1)%nat = Some y →
  x :: take (List.length pool - 1) (<[j := y]> pool) ≡ₚ pool.
Proof.
  intros Hj Hlast.
  assert (Hlen : (j < List.length pool)%nat) by by eapply lookup_lt_Some.
  destruct (decide (j = List.length pool - 1)%nat) as [->|Hne].
  - assert (x = y) as -> by congruence.
    rewrite list_insert_id by done.
    rewrite <- (take_drop (List.length pool - 1) pool) at 3.
    rewrite (drop_S _ y) by done.
    rewrite drop_ge by lia. by rewrite Permutation_cons_append.
  - rewrite take_insert_lt by lia.
    rewrite <- (take_drop (List.length pool - 1) pool) at 3.
    rewrite (drop_S _ y) by done. rewrite (drop_ge pool) by lia.
    set (pre := take (List.length pool - 1) pool).
    assert (Hpre : pre !! j = Some x) by (unfold pre; rewrite lookup_take_lt by lia; done).
    destruct (list_elem_of_split_length _ _ _ Hpre) as (p1 & p2 & -> & ->).
    rewrite insert_app_r_alt by lia. rewrite Nat.sub_diag. simpl.
    rewrite <- Permutation_cons_append, <- !Permutation_middle.
    apply perm_swap.
Qed.

(** Drawing is without replacement: the sample is a sub-multiset of
    the population. *)
Lemma sample_pool_submseteq rng k : ∀ i pool, sample_pool rng i pool k ⊆+ pool.
Proof.
  induction k as [|k IH]; intros i pool; simpl; [apply submseteq_nil_l|].
  destruct (pool !! _) as [x|] eqn:Hx; [|apply submseteq_nil_l].
  destruct (pool !! (_ - 1)%nat) as [y|] eqn:Hy; [|apply submseteq_nil_l].
  etrans; [apply submseteq_skip, IH|].
  by rewrite (pool_step pool _ x y Hx Hy).
Qed.

End Lists.

Section Index.

Implicit Types cache : list Avatar.

Lemma build_dict_snoc cache a :
  build_dict (cache ++ [a]) = <[Py.lower (name a) := a]> (build_dict cache).
Proof. unfold build_dict. by rewrite foldl_app. Qed.

(** The index holds, under each key, the last record of the list with
    that lowercased name. *)
Lemma build_dict_lookup cache k :
  build_dict cache !! k = last (filter (λ a, Py.lower (name a) = k) cache).
Proof.
  induction cache as [|a cache IH] using rev_ind; [done|].
  rewrite build_dict_snoc, filter_app, lookup_insert.
  rewrite filter_cons, filter_nil. case_decide as Hk.
  - by rewrite last_snoc.
  - by rewrite app_nil_r.
Qed.

Lemma build_dict_lookup_Some cache k a :
  build_dict cache !! k = Some a → a ∈ cache ∧ Py.lower (name a) = k.
Proof.
  rewrite build_dict_lookup. intros Hlast.
  apply last_Some_elem_of in Hlast. by apply list_elem_of_filter in Hlast as [? ?].
Qed.

Lemma build_dict_lookup_None cache k :
  build_dict cache !! k = None ↔ ∀ a, a ∈ cache → Py.lower (name a) ≠ k.
Proof.
  rewrite build_dict_lookup, last_None. split.
  - intros Hnil a Ha Hk. assert (a ∈ filter (λ a, Py.lower (name a) = k) cache) as Hin
      by by apply list_elem_of_filter.
    rewrite Hnil in Hin. by apply not_elem_of_nil in Hin.
  - intros Hall. destruct (filter _ cache) as [|a rest] eqn:E; [done|].
    assert (a ∈ filter (λ a, Py.lower (name a) = k) cache) as Hin
      by (rewrite E; left).
    apply list_elem_of_filter in Hin as [Hk Ha]. by apply Hall in Ha.
Qed.

End Index.

Section Search.

Implicit Types cache : list Avatar.

Lemma name_matches_elem sub cache a :
  a ∈ name_matches sub cache ↔
  a ∈ cache ∧ ∃ u v, Py.lower (name a) = u +:+ sub +:+ v.
Proof.
  unfold name_matches. rewrite !list_elem_of_In, filter_In, contains_app_iff. done.
Qed.

Lemma name_matches_sublist sub cache : sublist (name_matches sub cache) cache.
Proof.
  induction cache as [|a cache IH]; simpl; [constructor|].
  destruct (Py.contains _ _); by constructor.
Qed.

(** The head of the matches is the first match in list order. *)
Lemma name_matches_head q cache a rest :
  name_matches (Py.lower q) cache = a :: rest →
  first_such (partial_match q) cache a.
Proof.
  induction cache as [|b cache IH]; simpl; [done|].
  destruct (Py.contains _ _) eqn:Hb.
  - intros [= -> _]. exists [], cache. split; [done|]. split.
    + by apply contains_app_iff.
    + intros c Hc. by apply not_elem_of_nil in Hc.
  - intros (pre & post & -> & Ha & Hpre)%IH.
    exists (b :: pre), post. split; [done|]. split; [done|].
    intros c [->|Hc]%elem_of_cons; [|by apply Hpre].
    intros Hm%contains_app_iff. congruence.
Qed.

Lemma name_matches_nil q cache :
  name_matches (Py.lower q) cache = [] →
  ∀ a, a ∈ cache → ¬ partial_match q a.
Proof.
  intros Hnil a Ha Hm.
  assert (a ∈ name_matches (Py.lower q) cache) as Hin by by apply name_matches_elem.
  rewrite Hnil in Hin. by apply not_elem_of_nil in Hin.
Qed.

Lemma searched_none g : searched g None = avatar_cache g ∧ searched g (Some "") = avatar_cache g.
Proof. done. Qed.

End Search.

(** ** Listing *)

(** C1. For [skip] at least 0 and [limit] within the bounds of the
    signature (1 to 200 for [get_all_avatars], 1 to 100 for
    [get_avatars]), listing returns normally; the page is the rendering
    of the records at positions [skip] to [skip + limit - 1] of the
    searched catalog, as far as they exist; it has at most [limit]
    entries, and it is empty when [skip] is past the end. *)
Theorem list_is_clamped_slice (g : Globals) (skip limit : Z) (search : option string) :
  0 ≤ skip → 1 ≤ limit ≤ 200 →
  ∃ page,
    V1.get_all_avatars g (Some skip) (Some limit) search = Return page
    ∧ (limit ≤ 100 → V2.get_avatars g (Some skip) (Some limit) search = Return page)
    ∧ page = map avatar_record
               (take (Z.to_nat limit) (drop (Z.to_nat skip) (searched g search)))
    ∧ Z.of_nat (List.length page) ≤ limit
    ∧ List.length page
      = (Z.to_nat limit `min` (List.length (searched g search) - Z.to_nat skip))%nat
    ∧ (∀ i : nat, (i < List.length page)%nat →
         page !! i = avatar_record <$> searched g search !! (Z.to_nat skip + i)%nat)
    ∧ (Z.of_nat (List.length (searched g search)) ≤ skip → page = []).
Proof.
  intros Hskip Hlimit. eexists. split; [|split; [|split; [reflexivity|]]].
  - unfold V1.get_all_avatars, list_handler, violated. simpl.
    destruct (Z.leb_spec 0 skip); [|lia].
    destruct (Z.leb_spec 1 limit); [|lia].
    destruct (Z.leb_spec limit 200); [|lia]. simpl.
    unfold list_body. by rewrite slice_offset_length by lia.
  - intros H100. unfold V2.get_avatars, list_handler, violated. simpl.
    destruct (Z.leb_spec 0 skip); [|lia].
    destruct (Z.leb_spec 1 limit); [|lia].
    destruct (Z.leb_spec limit 100); [|lia]. simpl.
    unfold list_body. by rewrite slice_offset_length by lia.
  - rewrite length_map, length_take, length_drop. repeat split.
    + lia.
    + intros i Hi. rewrite list_lookup_fmap, lookup_take_lt by lia.
      by rewrite lookup_drop.
    + intros Hend. rewrite drop_ge by lia. by rewrite take_nil.
Qed.

Lemma list_is_clamped_slice_witness :
  (0 ≤ 140 ∧ 1 ≤ 10 ≤ 200) ∧
  ∃ page,
    V1.get_all_avatars (V1.load_avatars initial) (Some 140) (Some 10) None = Return page
    ∧ List.length page = 4%nat.
Proof.
  split; [lia|].
  destruct (list_is_clamped_slice (V1.load_avatars initial) 140 10 None)
    as (page & Hret & _ & _ & _ & Hlen & _); [lia..|].
  exists page. split; [exact Hret|]. rewrite Hlen. reflexivity.
Defined.

(** C2, as stated, fails: over the hardcoded catalog the search for
    "ana" returns three records, none of them named "Amanda Lowery",
    although the catalog holds that record: "amanda lowery" does not
    contain "ana". *)
Lemma search_ana_misses_amanda :
  ∃ page,
    V1.get_all_avatars (V1.load_avatars initial) None None (Some "ana") = Return page
    ∧ mkAvatar "Amanda Lowery" (BASE_AVATAR_URL +:+ "Amanda Lowery.png")
        ∈ avatar_cache (V1.load_avatars initial)
    ∧ Py.contains (Py.lower "ana") (Py.lower "Amanda Lowery") = false
    ∧ ¬ (Some "Amanda Lowery" ∈ names_of page).
Proof.
  eexists. split; [vm_compute; reflexivity|]. split; [|split].
  - apply list_elem_of_In. vm_compute. tauto.
  - vm_compute. reflexivity.
  - vm_compute. intros Hin. apply list_elem_of_In in Hin. simpl in Hin.
    destruct Hin as [H|[H|[H|[]]]]; discriminate H.
Qed.

(** C2, amended. A search string that is present and not empty keeps
    exactly the records whose lowercased name contains the lowercased
    search string, in catalog order; without one the catalog is listed
    whole.  Over the hardcoded catalog the search for "ana" returns the
    records named "Adriana O'Sullivan", "Anaiah Whitten" and
    "Lana Steiner", in this order and no others: neither "Amanda Lowery"
    nor "Byron Robertson" is among them. *)
Theorem search_is_substring_filter (g : Globals) (c : ascii) (s : string) :
  (∀ a, a ∈ searched g (Some (String c s))
        ↔ a ∈ avatar_cache g ∧ partial_match (String c s) a)
  ∧ sublist (searched g (Some (String c s))) (avatar_cache g)
  ∧ searched g None = avatar_cache g
  ∧ ∃ page,
      V1.get_all_avatars (V1.load_avatars initial) None None (Some "ana") = Return page
      ∧ names_of page
        = [Some "Adriana O'Sullivan"; Some "Anaiah Whitten"; Some "Lana Steiner"]
      ∧ ¬ (Some "Amanda Lowery" ∈ names_of page)
      ∧ ¬ (Some "Byron Robertson" ∈ names_of page).
Proof.
  split; [|split; [|split]].
  - intros a. apply name_matches_elem.
  - apply name_matches_sublist.
  - done.
  - eexists. split; [vm_compute; reflexivity|].
    split; [vm_compute; reflexivity|].
    split; vm_compute; intros Hin; apply list_elem_of_In in Hin; simpl in Hin;
      destruct Hin as [H|[H|[H|[]]]]; discriminate H.
Qed.

Section LastSuch.

Context (P : Avatar → Prop) `{!∀ a, Decision (P a)}.
Implicit Types cache : list Avatar.

Lemma last_such_snoc_yes cache a b :
  P b → last_such P (cache ++ [b]) a ↔ a = b.
Proof.
  intros Hb. split.
  - intros (pre & post & Heq & Ha & Hpost).
    destruct post as [|x post _] using rev_ind.
    + by apply app_inj_tail in Heq as [_ ->].
    + rewrite app_comm_cons, app_assoc in Heq.
      apply app_inj_tail in Heq as [_ ->].
      exfalso. apply (Hpost x); [|done]. apply elem_of_app. right. left.
  - intros ->. exists cache, []. split; [done|]. split; [done|].
    intros x Hx. by apply not_elem_of_nil in Hx.
Qed.

Lemma last_such_snoc_no cache a b :
  ¬ P b → last_such P (cache ++ [b]) a ↔ last_such P cache a.
Proof.
  intros Hb. split.
  - intros (pre & post & Heq & Ha & Hpost).
    destruct post as [|x post _] using rev_ind.
    + apply app_inj_tail in Heq as [_ ->]. done.
    + rewrite app_comm_cons, app_assoc in Heq.
      apply app_inj_tail in Heq as [-> ->].
      exists pre, post. split; [done|]. split; [done|].
      intros y Hy. apply Hpost, elem_of_app. by left.
  - intros (pre & post & -> & Ha & Hpost).
    exists pre, (post ++ [b]). split; [by rewrite <- app_assoc|]. split; [done|].
    intros y [Hy|Hy]%elem_of_app; [by apply Hpost|].
    apply list_elem_of_singleton in Hy. by subst y.
Qed.

Lemma last_filter_last_such cache a :
  last (filter P cache) = Some a ↔ last_such P cache a.
Proof.
  induction cache as [|b cache IH] using rev_ind.
  - split; [done|]. intros (pre & post & Heq & _). by destruct pre.
  - rewrite filter_app, filter_cons, filter_nil. case_decide as Hb.
    + rewrite last_snoc, last_such_snoc_yes by done. split; congruence.
    + by rewrite app_nil_r, last_such_snoc_no.
Qed.

End LastSuch.

(** The index answers with the last record, in list order, whose
    lowercased name is the key. *)
Lemma build_dict_last_such (cache : list Avatar) (k : string) (a : Avatar) :
  build_dict cache !! k = Some a ↔ last_such (λ b, Py.lower (name b) = k) cache a.
Proof. rewrite build_dict_lookup. apply last_filter_last_such. Qed.

(** ** Lookup by name *)

Lemma lookup_body_spec (g : Globals) (q : string) : GetByName_spec g q (lookup_body g q).
Proof.
  unfold lookup_body, resolve.
  destruct (avatar_dict g !! Py.lower q) as [a|] eqn:Hdict; [by constructor|].
  destruct (name_matches (Py.lower q) (avatar_cache g)) as [|a rest] eqn:Hm.
  - apply not_found; [done|]. by apply name_matches_nil.
  - apply found_partial; [done|]. by eapply name_matches_head.
Qed.

(** C3. [get_avatar_by_name] (and [get_avatar], the same text) answers
    from the index when the lowercased query is a key; only otherwise
    with the first record in catalog order whose lowercased name
    contains the lowercased query; and with a 404 naming the query when
    there is none.  A key of the index built from the catalog is hit
    exactly when a record matches the query up to case.  Over the
    hardcoded catalog "OLIVIA RHYE" gives the "Olivia Rhye" record,
    "Lane" gives "Adem Lane", the first record containing "lane", and
    "doesnotexist" gives the 404. *)
Theorem get_by_name_contract (g : Globals) (q : string) :
  GetByName_spec g q (V1.get_avatar_by_name g q)
  ∧ V2.get_avatar g q = V1.get_avatar_by_name g q
  ∧ (∀ cache a, build_dict cache !! Py.lower q = Some a
                ↔ last_such (exact_match q) cache a)
  ∧ V1.get_avatar_by_name (V1.load_avatars initial) "OLIVIA RHYE"
    = Return (avatar_record olivia_rhye)
  ∧ V1.get_avatar_by_name (V1.load_avatars initial) "Lane"
    = Return (avatar_record adem_lane)
  ∧ avatar_dict (V1.load_avatars initial) !! Py.lower "Lane" = None
  ∧ first_such (partial_match "Lane") (avatar_cache (V1.load_avatars initial)) adem_lane
  ∧ V1.get_avatar_by_name (V1.load_avatars initial) "doesnotexist"
    = HTTPException 404 (Some "Avatar 'doesnotexist' not found").
Proof.
  split; [apply lookup_body_spec|]. split; [done|]. split.
  { intros cache a. apply build_dict_last_such. }
  split; [vm_compute; reflexivity|]. split; [vm_compute; reflexivity|].
  split; [vm_compute; reflexivity|]. split; [|vm_compute; reflexivity].
  eapply name_matches_head. vm_compute. reflexivity.
Qed.

Lemma get_by_name_contract_witness :
  last_such (exact_match "OLIVIA RHYE") (avatar_cache (V1.load_avatars initial)) olivia_rhye.
Proof.
  destruct (get_by_name_contract initial "OLIVIA RHYE") as (_ & _ & Hidx & _).
  apply Hidx. vm_compute. reflexivity.
Defined.

(** ** Image proxy *)

(** C7, as stated, fails: a miss is not answered without a body.  The
    handler raises the 404 without a detail of its own, and the
    exception is answered with the JSON body [{"detail": "Not Found"}]. *)
Lemma image_proxy_miss_has_body :
  V1.get_avatar_image (λ _, inl "unused") (V1.load_avatars initial) "doesnotexist"
  = HTTPException 404 None
  ∧ error_body (V1.get_avatar_image (λ _, inl "unused") (V1.load_avatars initial)
                  "doesnotexist")
    = Some [("detail", "Not Found")]
  ∧ error_body (V1.get_avatar_image (λ _, inl "unused") (V1.load_avatars initial)
                  "doesnotexist")
    ≠ None.
Proof. split; [|split]; [vm_compute; reflexivity..|discriminate]. Qed.

(** C7, amended. [get_avatar_image] looks the lowercased name up in the
    index and nowhere else.  When the index has no entry it raises a 404
    without a detail of its own, whatever the catalog holds, records
    that contain the name included; the answer to it has the body
    [{"detail": "Not Found"}].  When the index has an entry and the
    fetch completes, the body fetched is returned under the media type
    image/png, whatever content type and status the fetched response
    has. *)
Theorem image_proxy_contract (client_get : string → string + HttpxResponse)
    (g : Globals) (q : string) :
  (avatar_dict g !! Py.lower q = None →
     V1.get_avatar_image client_get g q = HTTPException 404 None
     ∧ error_body (V1.get_avatar_image client_get g q) = Some [("detail", "Not Found")])
  ∧ (∀ cache, (∀ a, a ∈ cache → ¬ exact_match q a) →
       V1.get_avatar_image client_get (mkGlobals cache (build_dict cache)) q
       = HTTPException 404 None
       ∧ error_body (V1.get_avatar_image client_get (mkGlobals cache (build_dict cache)) q)
         = Some [("detail", "Not Found")])
  ∧ (∀ a r, avatar_dict g !! Py.lower q = Some a →
       client_get (imageurl a) = inr r →
       V1.get_avatar_image client_get g q = Return (mkResponse (content r) "image/png"))
  ∧ (∀ a st ct st' ct' body,
       avatar_dict g !! Py.lower q = Some a →
       V1.get_avatar_image (λ _, inr (mkHttpxResponse st ct body)) g q
       = V1.get_avatar_image (λ _, inr (mkHttpxResponse st' ct' body)) g q).
Proof.
  unfold V1.get_avatar_image. split; [|split; [|split]].
  - by intros ->.
  - intros cache Hnone. simpl.
    assert (build_dict cache !! Py.lower q = None) as ->; [|done].
    apply build_dict_lookup_None. intros a Ha. by apply Hnone.
  - by intros a r -> ->.
  - by intros a st ct st' ct' body ->.
Qed.

Lemma image_proxy_contract_witness :
  V1.get_avatar_image (λ _, inr (mkHttpxResponse 200 "text/html" "bytes"))
    (V1.load_avatars initial) "olivia RHYE"
  = Return (mkResponse "bytes" "image/png")
  ∧ V1.get_avatar_image (λ _, inr (mkHttpxResponse 200 "text/html" "bytes"))
      (V1.load_avatars initial) "Lane"
    = HTTPException 404 None
  ∧ error_body (V1.get_avatar_image (λ _, inr (mkHttpxResponse 200 "text/html" "bytes"))
                  (V1.load_avatars initial) "Lane")
    = Some [("detail", "Not Found")].
Proof.
  destruct (image_proxy_contract (λ _, inr (mkHttpxResponse 200 "text/html" "bytes"))
              (V1.load_avatars initial) "olivia RHYE") as (_ & _ & Hhit & _).
  destruct (image_proxy_contract (λ _, inr (mkHttpxResponse 200 "text/html" "bytes"))
              (V1.load_avatars initial) "Lane") as (Hmiss & _).
  split.
  - apply (Hhit olivia_rhye (mkHttpxResponse 200 "text/html" "bytes")); vm_compute; reflexivity.
  - apply Hmiss. vm_compute. reflexivity.
Defined.

(** C10. A name that only a substring match resolves is answered with a
    record by [get_avatar_by_name] and with a 404 by [get_avatar_image];
    over the hardcoded catalog "Lane" is such a name. *)
Theorem partial_name_record_but_no_image (client_get : string → string + HttpxResponse) :
  (∃ q a,
     V1.get_avatar_by_name (V1.load_avatars initial) q = Return (avatar_record a)
     ∧ V1.get_avatar_image client_get (V1.load_avatars initial) q = HTTPException 404 None)
  ∧ ∀ g q a,
      avatar_dict g !! Py.lower q = None →
      first_such (partial_match q) (avatar_cache g) a →
      V1.get_avatar_by_name g q = Return (avatar_record a)
      ∧ V1.get_avatar_image client_get g q = HTTPException 404 None.
Proof.
  split.
  - exists "Lane", adem_lane. split; [vm_compute; reflexivity|].
    unfold V1.get_avatar_image.
    assert (avatar_dict (V1.load_avatars initial) !! Py.lower "Lane" = None) as ->
      by (vm_compute; reflexivity). done.
  - intros g q a Hmiss (pre & post & Hcache & Ha & Hpre). split.
    + unfold V1.get_avatar_by_name, lookup_body, resolve. rewrite Hmiss, Hcache.
      assert (name_matches (Py.lower q) (pre ++ a :: post)
              = a :: name_matches (Py.lower q) post) as ->; [|done].
      unfold name_matches. rewrite List.filter_app. simpl.
      apply contains_app_iff in Ha as ->.
      assert (List.filter (λ b, Py.contains (Py.lower q) (Py.lower (name b))) pre = []) as ->; [|done].
      clear Hcache. induction pre as [|b pre IH]; simpl; [done|].
      destruct (Py.contains _ _) eqn:Hb.
      * exfalso. apply (Hpre b); [left|]. by apply contains_app_iff.
      * apply IH. intros x Hx. apply Hpre. by right.
    + unfold V1.get_avatar_image. by rewrite Hmiss.
Qed.

Lemma partial_name_record_but_no_image_witness :
  V1.get_avatar_by_name (V1.load_avatars initial) "Lane" = Return (avatar_record adem_lane)
  ∧ V1.get_avatar_image (λ _, inl "ConnectError") (V1.load_avatars initial) "Lane"
    = HTTPException 404 None.
Proof.
  destruct (partial_name_record_but_no_image (λ _, inl "ConnectError")) as [_ Hgen].
  apply Hgen.
  - vm_compute. reflexivity.
  - eapply name_matches_head. vm_compute. reflexivity.
Defined.

(** ** Random sample *)

Lemma submseteq_NoDup {A} (l k : list A) : l ⊆+ k → NoDup k → NoDup l.
Proof.
  intros [rest Hperm]%submseteq_Permutation Hk.
  rewrite Hperm in Hk. by apply NoDup_app in Hk as [? _].
Qed.

Global Instance avatar_record_inj : Inj (=) (=) avatar_record.
Proof. intros [n1 u1] [n2 u2] H. unfold avatar_record in H. simpl in H. congruence. Qed.

(** What [get_random_avatars] does for each count. *)
Lemma random_sample_spec (rng : nat → nat) (g : Globals) (count : Z) :
  (count < 1 →
     V1.get_random_avatars rng g count
     = HTTPException 400 (Some "Count must be at least 1"))
  ∧ (1 ≤ count →
     ∃ selected,
       V1.get_random_avatars rng g count = Return (map avatar_record selected)
       ∧ Z.of_nat (List.length selected)
         = Z.min (Z.min count 50) (Z.of_nat (List.length (avatar_cache g)))
       ∧ selected ⊆+ avatar_cache g).
Proof.
  split.
  - intros Hlt. unfold V1.get_random_avatars.
    by destruct (Z.ltb_spec count 1); [|lia].
  - intros Hc. unfold V1.get_random_avatars, random_sample.
    destruct (Z.ltb_spec count 1) as [|_]; [lia|].
    set (c' := if count >? 50 then 50 else count).
    assert (Hc' : c' = Z.min count 50).
    { unfold c'. destruct (Z.gtb_spec count 50); lia. }
    set (k := Z.min c' (Z.of_nat (List.length (avatar_cache g)))).
    assert (Hk : 0 ≤ k ≤ Z.of_nat (List.length (avatar_cache g))) by lia.
    destruct (Z.leb_spec 0 k); [|lia].
    destruct (Z.leb_spec k (Z.of_nat (List.length (avatar_cache g)))); [|lia]. simpl.
    eexists. split; [reflexivity|]. split.
    + rewrite sample_pool_length by lia. lia.
    + apply sample_pool_submseteq.
Qed.

(** C4. Whatever the generator draws, [get_random_avatars] raises a 400
    for a count below 1; for a count of at least 1 it returns the
    rendering of [min (min count 50) (len catalog)] records drawn from
    the catalog without replacement (the records returned, with
    repetitions, are a sub-multiset of the catalog, hence pairwise
    distinct when the catalog is); for an empty catalog it returns the
    empty list; for count 1000 the result has [min 50 (len catalog)]
    entries. *)
Theorem random_sample_contract (rng : nat → nat) (g : Globals) (count : Z) :
  (count < 1 →
     V1.get_random_avatars rng g count
     = HTTPException 400 (Some "Count must be at least 1"))
  ∧ (1 ≤ count →
     ∃ selected,
       V1.get_random_avatars rng g count = Return (map avatar_record selected)
       ∧ Z.of_nat (List.length selected)
         = Z.min (Z.min count 50) (Z.of_nat (List.length (avatar_cache g)))
       ∧ selected ⊆+ avatar_cache g
       ∧ (NoDup (avatar_cache g) →
            NoDup selected ∧ NoDup (map avatar_record selected))
       ∧ (avatar_cache g = [] → selected = []))
  ∧ (∃ page, V1.get_random_avatars rng g 1000 = Return page
       ∧ List.length page = (50 `min` List.length (avatar_cache g))%nat).
Proof.
  split; [|split].
  - apply random_sample_spec.
  - intros Hc. destruct (random_sample_spec rng g count) as [_ Hmain].
    destruct (Hmain Hc) as (selected & Hret & Hlen & Hsub).
    exists selected. repeat split; try done.
    + by eapply submseteq_NoDup.
    + apply NoDup_fmap_2; [apply _|]. by eapply submseteq_NoDup.
    + intros Hnil. rewrite Hnil in Hsub. by apply submseteq_nil_r.
  - destruct (random_sample_spec rng g 1000) as [_ Hmain].
    destruct Hmain as (selected & Hret & Hlen & _); [lia|].
    eexists. split; [exact Hret|]. rewrite length_map. lia.
Qed.

Lemma random_sample_contract_witness :
  ∃ selected,
    V1.get_random_avatars (λ i, (7 * i + 3)%nat) (V1.load_avatars initial) 200
    = Return (map avatar_record selected)
    ∧ List.length selected = 50%nat
    ∧ NoDup selected.
Proof.
  destruct (random_sample_contract (λ i, (7 * i + 3)%nat) (V1.load_avatars initial) 200)
    as (_ & Hok & _).
  destruct Hok as (selected & Hret & Hlen & _ & Hnodup & _); [lia|].
  exists selected. split; [exact Hret|]. split.
  - apply Nat2Z.inj. rewrite Hlen. vm_compute. reflexivity.
  - apply Hnodup. apply (bool_decide_unpack _). vm_compute. exact I.
Defined.

(** ** The index *)

Section BuiltIndex.

Variable cache : list Avatar.

Lemma indexed_every_record (a : Avatar) :
  a ∈ cache →
  ∃ b, build_dict cache !! Py.lower (name a) = Some b
       ∧ b ∈ cache ∧ Py.lower (name b) = Py.lower (name a).
Proof.
  intros Ha. destruct (build_dict cache !! Py.lower (name a)) as [b|] eqn:Hb.
  - exists b. split; [done|]. by apply build_dict_lookup_Some in Hb.
  - exfalso. rewrite build_dict_lookup_None in Hb. by apply (Hb a).
Qed.

Lemma indexed_last_wins pre a1 mid a2 post :
  cache = pre ++ a1 :: mid ++ a2 :: post →
  Py.lower (name a1) = Py.lower (name a2) →
  (∀ b, b ∈ post → Py.lower (name b) ≠ Py.lower (name a2)) →
  build_dict cache !! Py.lower (name a1) = Some a2 ∧ a1 ∈ cache ∧ a2 ∈ cache.
Proof.
  intros Hcache Hsame Hpost. split; [|split].
  - apply build_dict_last_such. exists (pre ++ a1 :: mid), post.
    split; [by rewrite Hcache, <- app_assoc|]. split; [done|].
    intros b Hb. rewrite Hsame. by apply Hpost.
  - rewrite Hcache. apply elem_of_app. right. left.
  - rewrite Hcache. apply elem_of_app. right. right. apply elem_of_app. right. left.
Qed.

End BuiltIndex.

(** C9. The startup event assigns both globals from the filename list
    alone: the list is the image of the filenames, the index is built
    from that list, and nothing of the former globals remains.  Every
    record of the list has its lowercased name as a key of the index,
    the index holds under each key the last record of the list with that
    lowercased name and nothing else; when two records share a
    lowercased name and none follows with it, the index answers with the
    later one and the list keeps both. *)
Theorem index_derived_from_list (files : list string) (g : Globals) :
  (avatar_cache (V1.load_from files g) = map V1.from_filename files
   ∧ avatar_cache (V2.load_from files g) = map V2.from_filename files
   ∧ V1.load_avatars g = V1.load_from V1.filenames initial
   ∧ V2.load_avatars g = V2.load_from V2.FILENAMES initial)
  ∧ ∀ loaded, loaded = V1.load_from files g ∨ loaded = V2.load_from files g →
      avatar_dict loaded = build_dict (avatar_cache loaded)
      ∧ (∀ a, a ∈ avatar_cache loaded →
           ∃ b, avatar_dict loaded !! Py.lower (name a) = Some b
                ∧ b ∈ avatar_cache loaded
                ∧ Py.lower (name b) = Py.lower (name a))
      ∧ (∀ k b, avatar_dict loaded !! k = Some b
                ↔ last_such (λ a, Py.lower (name a) = k) (avatar_cache loaded) b)
      ∧ (∀ pre a1 mid a2 post,
           avatar_cache loaded = pre ++ a1 :: mid ++ a2 :: post →
           Py.lower (name a1) = Py.lower (name a2) →
           (∀ b, b ∈ post → Py.lower (name b) ≠ Py.lower (name a2)) →
           avatar_dict loaded !! Py.lower (name a1) = Some a2
           ∧ a1 ∈ avatar_cache loaded ∧ a2 ∈ avatar_cache loaded).
Proof.
  split; [done|].
  intros loaded [-> | ->]; simpl.
  all: split; [done|]; split; [apply indexed_every_record|].
  all: split; [intros k b; apply build_dict_last_such|apply indexed_last_wins].
Qed.

Lemma index_derived_from_list_witness :
  avatar_dict (V2.load_from ["Bob.png"; "Eve.png"; "BOB.png"] initial) !! "bob"
  = Some (mkAvatar "BOB" (BASE_AVATAR_URL +:+ "BOB.png"))
  ∧ mkAvatar "Bob" (BASE_AVATAR_URL +:+ "Bob.png")
      ∈ avatar_cache (V2.load_from ["Bob.png"; "Eve.png"; "BOB.png"] initial)
  ∧ mkAvatar "BOB" (BASE_AVATAR_URL +:+ "BOB.png")
      ∈ avatar_cache (V2.load_from ["Bob.png"; "Eve.png"; "BOB.png"] initial).
Proof.
  destruct (index_derived_from_list ["Bob.png"; "Eve.png"; "BOB.png"] initial) as [_ Hidx].
  destruct (Hidx (V2.load_from ["Bob.png"; "Eve.png"; "BOB.png"] initial)) as (_ & _ & _ & Hdup);
    [by right|].
  apply (Hdup [] (mkAvatar "Bob" (BASE_AVATAR_URL +:+ "Bob.png"))
              [mkAvatar "Eve" (BASE_AVATAR_URL +:+ "Eve.png")]
              (mkAvatar "BOB" (BASE_AVATAR_URL +:+ "BOB.png")) []).
  - vm_compute. reflexivity.
  - vm_compute. reflexivity.
  - intros b Hb. by apply not_elem_of_nil in Hb.
Defined.

(** ** Statistics *)

Lemma extension_of_png (front : string) : extension_of (front +:+ ".png") = "png".
Proof. unfold extension_of. by apply (last_piece_after "." front "png"). Qed.

(** C5. [get_avatar_stats] returns the length of the catalog, the base
    URL, the set whose members are exactly the texts after the last dot
    of the image URLs of the catalog, and the name and URL of the first
    five records in catalog order (of all of them when there are fewer).
    For a catalog, not empty, built from plain filenames that all end in
    ".png" the set is {"png"}; so it is for the hardcoded catalog, whose
    total is 144. *)
Theorem stats_contract (g : Globals) :
  total_avatars (V1.get_avatar_stats g) = Z.of_nat (List.length (avatar_cache g))
  ∧ base_url (V1.get_avatar_stats g) = BASE_AVATAR_URL
  ∧ (∀ e, e ∈ file_types (V1.get_avatar_stats g)
          ↔ ∃ a, a ∈ avatar_cache g ∧ e = extension_of (imageurl a))
  ∧ sample_avatars (V1.get_avatar_stats g)
    = map (λ a, [("name", name a); ("url", imageurl a)]) (take 5 (avatar_cache g))
  ∧ (∀ files,
       files ≠ [] →
       (∀ f, f ∈ files → plain_segment f = true ∧ ∃ stem, f = stem +:+ ".png") →
       file_types (V1.get_avatar_stats (V1.load_from files g)) = {["png"]})
  ∧ total_avatars (V1.get_avatar_stats (V1.load_avatars g)) = 144
  ∧ file_types (V1.get_avatar_stats (V1.load_avatars g)) = {["png"]}
  ∧ map (field "name") (sample_avatars (V1.get_avatar_stats (V1.load_avatars g)))
    = [Some "Abraham Baker"; Some "Adem Lane"; Some "Adil Floyd";
       Some "Adriana O'Sullivan"; Some "Alec Whitten"].
Proof.
  assert (Hmem : ∀ g' e, e ∈ file_types (V1.get_avatar_stats g')
                 ↔ ∃ a, a ∈ avatar_cache g' ∧ e = extension_of (imageurl a)).
  { intros g' e. unfold V1.get_avatar_stats. simpl.
    rewrite elem_of_list_to_set, map_map. change (map ?f ?l) with (f <$> l).
    rewrite list_elem_of_fmap. split; intros (a & H1 & H2); exists a; done. }
  assert (Hpng : ∀ files,
       files ≠ [] →
       (∀ f, f ∈ files → plain_segment f = true ∧ ∃ stem, f = stem +:+ ".png") →
       file_types (V1.get_avatar_stats (V1.load_from files g)) = {["png"]}).
  { intros files Hne Hall. apply set_eq. intros e.
    rewrite Hmem, elem_of_singleton. simpl. split.
    - intros (a & Ha & ->). change (map ?f ?l) with (f <$> l) in Ha.
      apply list_elem_of_fmap in Ha as (f & -> & Hf).
      destruct (Hall f Hf) as [_ [stem ->]]. simpl. unfold urljoin.
      rewrite <- sapp_assoc. apply extension_of_png.
    - intros ->. destruct files as [|f files]; [done|].
      exists (V1.from_filename f). split; [left|].
      destruct (Hall f) as [_ [stem ->]]; [left|]. simpl. unfold urljoin.
      rewrite <- sapp_assoc. symmetry. apply extension_of_png. }
  split; [done|]. split; [done|]. split; [apply Hmem|]. split.
  { unfold V1.get_avatar_stats. simpl.
    pose proof (slice_offset_length (avatar_cache g) 0 5) as Hs.
    change (0 + 5) with 5 in Hs. rewrite Hs by lia. done. }
  split; [exact Hpng|]. split; [vm_compute; reflexivity|]. split; [|vm_compute; reflexivity].
  apply set_eq. intros e. rewrite Hmem, elem_of_singleton. split.
  - intros (a & Ha & ->). revert a Ha. apply Forall_forall.
    apply (bool_decide_unpack _). vm_compute. exact I.
  - intros ->. exists adem_lane. split; [|vm_compute; reflexivity].
    apply (bool_decide_unpack _). vm_compute. exact I.
Qed.

Lemma stats_contract_witness :
  file_types (V1.get_avatar_stats (V1.load_from ["Abraham Baker.png"; "Adem Lane.png"] initial))
  = {["png"]}.
Proof.
  destruct (stats_contract initial) as (_ & _ & _ & _ & Hpng & _).
  apply Hpng; [done|].
  intros f Hf. apply list_elem_of_In in Hf. simpl in Hf.
  destruct Hf as [<-|[<-|[]]].
  - split; [vm_compute; reflexivity | by exists "Abraham Baker"].
  - split; [vm_compute; reflexivity | by exists "Adem Lane"].
Defined.

(** ** Response records *)

(** The records a handler can emit are renderings of catalog records. *)
Lemma list_body_from_catalog (g : Globals) skip limit search r :
  r ∈ list_body g skip limit search → ∃ a, a ∈ avatar_cache g ∧ r = avatar_record a.
Proof.
  unfold list_body. change (map ?f ?l) with (f <$> l).
  intros (a & -> & Ha)%list_elem_of_fmap. exists a. split; [|done].
  unfold Py.slice in Ha. apply subseteq_take, subseteq_drop in Ha.
  destruct search as [[|c s]|]; simpl in Ha; try done.
  by apply name_matches_elem in Ha as [? _].
Qed.

(** C6, as stated, fails: with the catalog built from the two filenames
    by [Avatar.from_filename] of lines 250-254, the listing with
    [limit=1] returns one record named "Abraham Baker" whose [filename]
    is "Abraham%20Baker.png", the last segment of the encoded URL, and
    not "Abraham Baker.png". *)
Lemma encoded_filename_counterexample :
  V2.get_avatars (V2.load_from two_files initial) None (Some 1) None
  = Return [[("name", "Abraham Baker");
             ("imageurl", BASE_AVATAR_URL +:+ "Abraham%20Baker.png");
             ("filename", "Abraham%20Baker.png")]]
  ∧ "Abraham%20Baker.png" ≠ "Abraham Baker.png".
Proof. split; [vm_compute; reflexivity | discriminate]. Qed.

(** C6, amended. Every record emitted by the listing, by the lookup by
    name and by the random sample is the rendering of one record: an
    object with the keys name, imageurl and filename, in which filename
    is the last path segment of imageurl (it holds no slash and imageurl
    ends with it, after a slash if imageurl has one).  For the listing
    and the sample that record is in the catalog.  With the catalog
    built from "Abraham Baker.png" and "Adem Lane.png" the listing with
    limit 1 returns one record, named "Abraham Baker"; its filename is
    "Abraham Baker.png" under [from_filename] of lines 18-23 and
    "Abraham%20Baker.png" under [from_filename] of lines 250-254, which
    encodes the space. *)
Theorem response_record_shape (a : Avatar) :
  (map fst (avatar_record a) = ["name"; "imageurl"; "filename"]
   ∧ field "name" (avatar_record a) = Some (name a)
   ∧ field "imageurl" (avatar_record a) = Some (imageurl a)
   ∧ ∃ f, field "filename" (avatar_record a) = Some f
          ∧ free_of "/" f = true
          ∧ (imageurl a = f ∨ ∃ front, imageurl a = front +:+ "/" +:+ f))
  ∧ (∀ g skip limit search page r,
       V1.get_all_avatars g skip limit search = Return page
       ∨ V2.get_avatars g skip limit search = Return page →
       r ∈ page → ∃ b, b ∈ avatar_cache g ∧ r = avatar_record b)
  ∧ (∀ g q r,
       V1.get_avatar_by_name g q = Return r ∨ V2.get_avatar g q = Return r →
       ∃ b, r = avatar_record b)
  ∧ (∀ rng g count page r,
       V1.get_random_avatars rng g count = Return page →
       r ∈ page → ∃ b, b ∈ avatar_cache g ∧ r = avatar_record b)
  ∧ V1.get_all_avatars (V1.load_from two_files initial) None (Some 1) None
    = Return [[("name", "Abraham Baker");
               ("imageurl", BASE_AVATAR_URL +:+ "Abraham Baker.png");
               ("filename", "Abraham Baker.png")]]
  ∧ V2.get_avatars (V2.load_from two_files initial) None (Some 1) None
    = Return [[("name", "Abraham Baker");
               ("imageurl", BASE_AVATAR_URL +:+ "Abraham%20Baker.png");
               ("filename", "Abraham%20Baker.png")]].
Proof.
  split; [|split; [|split; [|split; [|split]]]].
  - split; [done|]. split; [done|]. split; [done|].
    eexists. split; [reflexivity|]. apply (last_piece_spec "/" (imageurl a)).
  - intros g skip limit search page r Hret Hr.
    assert (page = list_body g (default 0 skip) (default 100 limit) search
            ∨ page = list_body g (default 0 skip) (default 20 limit) search) as Hpage.
    { unfold V1.get_all_avatars, V2.get_avatars, list_handler in Hret.
      destruct Hret as [Hret|Hret]; [left|right].
      all: destruct (violated _ _ _); [|discriminate Hret]; congruence. }
    destruct Hpage as [-> | ->]; by eapply list_body_from_catalog.
  - intros g q r Hret.
    assert (lookup_body g q = Return r) as Hbody by by destruct Hret.
    unfold lookup_body in Hbody. destruct (resolve g q) as [b|]; [|discriminate Hbody].
    exists b. congruence.
  - intros rng g count page r Hret Hr.
    destruct (Z_lt_ge_dec count 1) as [Hlt|Hge].
    + destruct (random_sample_spec rng g count) as [Hbad _]. rewrite Hbad in Hret by done.
      discriminate Hret.
    + destruct (random_sample_spec rng g count) as [_ Hok].
      destruct Hok as (selected & Hsel & _ & Hsub); [lia|].
      rewrite Hsel in Hret. injection Hret as <-.
      change (map ?f ?l) with (f <$> l) in Hr.
      apply list_elem_of_fmap in Hr as (b & -> & Hb). exists b. split; [|done].
      eapply elem_of_submseteq; eauto.
  - vm_compute. reflexivity.
  - vm_compute. reflexivity.
Qed.

Lemma response_record_shape_witness :
  ∃ b, b ∈ avatar_cache (V2.load_from two_files initial)
       ∧ [("name", "Abraham Baker");
          ("imageurl", BASE_AVATAR_URL +:+ "Abraham%20Baker.png");
          ("filename", "Abraham%20Baker.png")] = avatar_record b.
Proof.
  destruct (response_record_shape adem_lane) as (_ & Hlist & _).
  eapply (Hlist (V2.load_from two_files initial) None (Some 1) None).
  - right. vm_compute. reflexivity.
  - left.
Defined.

(** ** Catalog builder *)

Section Replace.

Lemma replace_scan_cons old new c s :
  Py.replace_scan old new 0 (String c s)
  = if String.prefix old (String c s)
    then new +:+ Py.replace_scan old new (String.length old - 1) s
    else String c (Py.replace_scan old new 0 s).
Proof. reflexivity. Qed.

(** Nothing to replace: the string is returned as it is. *)
Lemma replace_scan_absent old new s :
  Py.contains old s = false → Py.replace_scan old new 0 s = s.
Proof.
  induction s as [|c s IH]; [done|].
  rewrite contains_cons, replace_scan_cons.
  intros [-> Hs]%orb_false_iff. by rewrite IH.
Qed.

Lemma prefix_cons a p b s :
  String.prefix (String a p) (String b s)
  = if ascii_dec a b then String.prefix p s else false.
Proof. reflexivity. Qed.

Lemma prefix_cons_nil a p : String.prefix (String a p) "" = false.
Proof. reflexivity. Qed.

Lemma prefix_nil s : String.prefix "" s = true.
Proof. by destruct s. Qed.

Ltac prefix_cases :=
  repeat (rewrite ?sapp_cons, ?sapp_nil, ?prefix_cons, ?prefix_cons_nil, ?prefix_nil;
          try done;
          match goal with
          | |- context [ascii_dec ?a ?b] => destruct (ascii_dec a b); try done
          end).

(** An occurrence of ".png" that starts before the final ".png" lies
    wholly before it. *)
Lemma prefix_png_app c s :
  String.prefix ".png" (String c s +:+ ".png") = String.prefix ".png" (String c s).
Proof. destruct s as [|c1 [|c2 [|c3 s]]]; prefix_cases. Qed.

Lemma replace_png_suffix stem :
  Py.contains ".png" stem = false →
  Py.replace ".png" "" (stem +:+ ".png") = stem.
Proof.
  unfold Py.replace. induction stem as [|c stem IH]; [done|].
  rewrite contains_cons. intros [Hc Hstem]%orb_false_iff.
  rewrite sapp_cons, replace_scan_cons, <- sapp_cons, prefix_png_app, Hc.
  by rewrite IH.
Qed.

Lemma free_of_app sep s t :
  free_of sep (s +:+ t) = free_of sep s && free_of sep t.
Proof.
  induction s as [|c s IH]; [done|].
  rewrite sapp_cons. simpl. rewrite IH. by rewrite andb_assoc.
Qed.

(** After [replace(' ', '%20')] no space is left. *)
Lemma replace_space_free s : free_of " " (Py.replace " " "%20" s) = true.
Proof.
  unfold Py.replace. induction s as [|c s IH]; [done|].
  rewrite replace_scan_cons, prefix_cons, prefix_nil. simpl Nat.sub.
  destruct (ascii_dec " " c) as [<-|Hc].
  - by rewrite free_of_app, IH.
  - simpl. rewrite IH, andb_true_r. apply negb_true_iff, Ascii.eqb_neq. congruence.
Qed.

End Replace.

Section Extensions.

(** A text without a dot cannot start across a dot. *)
Lemma prefix_dotfree_app (p s t : string) :
  free_of "." p = true →
  String.prefix p (s +:+ String "." t) = String.prefix p s.
Proof.
  revert s. induction p as [|a p IH]; intros s Hp; [by rewrite !prefix_nil|].
  simpl in Hp. apply andb_true_iff in Hp as [Ha Hp].
  apply negb_true_iff, Ascii.eqb_neq in Ha.
  destruct s as [|b s].
  - rewrite sapp_nil, prefix_cons, prefix_cons_nil. by destruct (ascii_dec a ".").
  - rewrite sapp_cons, !prefix_cons, IH by done. done.
Qed.

(** The scan for an extension passes over a stem that does not hold it
    and goes on at the next dot. *)
Lemma replace_scan_dot_suffix (p new stem t : string) :
  free_of "." p = true →
  Py.contains (String "." p) stem = false →
  Py.replace_scan (String "." p) new 0 (stem +:+ String "." t)
  = stem +:+ Py.replace_scan (String "." p) new 0 (String "." t).
Proof.
  intros Hp. induction stem as [|c stem IH]; [done|].
  rewrite contains_cons. intros [Hc Hstem]%orb_false_iff.
  rewrite sapp_cons, replace_scan_cons, prefix_cons, prefix_dotfree_app by done.
  rewrite prefix_cons in Hc. rewrite Hc, IH by done. done.
Qed.

(** The name of lines 18-23 for a stem that holds no extension text,
    followed by one of the three extensions. *)
Lemma v1_name_of_stem (stem : string) :
  Py.contains ".png" stem = false → Py.contains ".jpg" stem = false →
  Py.contains ".jpeg" stem = false →
  name (V1.from_filename (stem +:+ ".png")) = stem
  ∧ name (V1.from_filename (stem +:+ ".jpg")) = stem
  ∧ name (V1.from_filename (stem +:+ ".jpeg")) = stem.
Proof.
  intros Hpng Hjpg Hjpeg. unfold V1.from_filename, Py.replace. cbn [name].
  rewrite !(replace_scan_dot_suffix "png" "" stem) by done.
  change (Py.replace_scan ".png" "" 0 ".png") with "".
  change (Py.replace_scan ".png" "" 0 ".jpg") with ".jpg".
  change (Py.replace_scan ".png" "" 0 ".jpeg") with ".jpeg".
  rewrite sapp_nil_r.
  rewrite !(replace_scan_dot_suffix "jpg" "" stem) by done.
  change (Py.replace_scan ".jpg" "" 0 ".jpg") with "".
  change (Py.replace_scan ".jpg" "" 0 ".jpeg") with ".jpeg".
  rewrite sapp_nil_r.
  rewrite !(replace_scan_dot_suffix "jpeg" "" stem) by done.
  change (Py.replace_scan ".jpeg" "" 0 ".jpeg") with "".
  rewrite sapp_nil_r.
  rewrite (replace_scan_absent ".jpg" "" stem Hjpg).
  rewrite (replace_scan_absent ".jpeg" "" stem Hjpeg). done.
Qed.

(** The name of lines 250-254 for a stem that does not hold ".png":
    the extension ".png" is stripped, another one is kept. *)
Lemma v2_name_of_stem (stem t : string) :
  Py.contains ".png" stem = false →
  name (V2.from_filename (stem +:+ ".png")) = stem
  ∧ name (V2.from_filename (stem +:+ String "." t))
    = stem +:+ Py.replace ".png" "" (String "." t).
Proof.
  intros Hpng. unfold V2.from_filename, Py.replace. cbn [name].
  rewrite !(replace_scan_dot_suffix "png" "" stem) by done.
  change (Py.replace_scan ".png" "" 0 ".png") with "".
  by rewrite sapp_nil_r.
Qed.

End Extensions.

(** C8, as stated, fails: [Avatar.from_filename] of lines 18-23 joins
    the filename as it is, without an encoding of spaces.  The image URL
    of "Abraham Baker.png", the first filename of its list, holds the
    space. *)
Lemma builder_counterexample :
  imageurl (V1.from_filename "Abraham Baker.png") = BASE_AVATAR_URL +:+ "Abraham Baker.png"
  ∧ free_of " " (imageurl (V1.from_filename "Abraham Baker.png")) = false
  ∧ head V1.filenames = Some "Abraham Baker.png"
  ∧ plain_segment "Abraham Baker.png" = true.
Proof. repeat split; vm_compute; reflexivity. Qed.

(** C8, amended. The catalog is the image of the filename list under
    [Avatar.from_filename]: as many records, the [i]-th from the [i]-th
    filename, none for an empty list.  The image URL of a plain filename
    is the base URL followed by the filename, with every space written
    %20 under lines 250-254 (no space is left) and with the filename as
    it is, spaces included, under lines 18-23.  The name is the filename
    without its extension for a filename that ends in a recognized
    extension (".png"; under lines 18-23 also ".jpg" and ".jpeg") and
    holds no recognized extension before it, as every hardcoded filename
    does; a filename that holds no recognized extension keeps its whole
    text as name, so ".jpg" is stripped under lines 18-23 and kept under
    lines 250-254. *)
Theorem catalog_builder_contract (files : list string) (g : Globals) :
  (List.length (avatar_cache (V2.load_from files g)) = List.length files
   ∧ List.length (avatar_cache (V1.load_from files g)) = List.length files
   ∧ (∀ i : nat, avatar_cache (V2.load_from files g) !! i = V2.from_filename <$> files !! i)
   ∧ (∀ i : nat, avatar_cache (V1.load_from files g) !! i = V1.from_filename <$> files !! i)
   ∧ V2.load_from [] g = mkGlobals [] ∅
   ∧ V1.load_from [] g = mkGlobals [] ∅)
  ∧ (∀ stem, Py.contains ".png" stem = false →
       name (V2.from_filename (stem +:+ ".png")) = stem
       ∧ name (V2.from_filename stem) = stem
       ∧ name (V2.from_filename (stem +:+ ".jpg")) = stem +:+ ".jpg"
       ∧ name (V2.from_filename (stem +:+ ".jpeg")) = stem +:+ ".jpeg")
  ∧ (∀ stem, Py.contains ".png" stem = false → Py.contains ".jpg" stem = false →
       Py.contains ".jpeg" stem = false →
       name (V1.from_filename (stem +:+ ".png")) = stem
       ∧ name (V1.from_filename (stem +:+ ".jpg")) = stem
       ∧ name (V1.from_filename (stem +:+ ".jpeg")) = stem
       ∧ name (V1.from_filename stem) = stem)
  ∧ (∀ f, plain_segment (Py.replace " " "%20" f) = true →
       imageurl (V2.from_filename f) = BASE_AVATAR_URL +:+ Py.replace " " "%20" f
       ∧ free_of " " (imageurl (V2.from_filename f)) = true)
  ∧ (∀ f, plain_segment f = true →
       imageurl (V1.from_filename f) = BASE_AVATAR_URL +:+ f
       ∧ free_of " " (imageurl (V1.from_filename f)) = free_of " " f)
  ∧ map name (avatar_cache (V2.load_avatars g)) = map (strip_extension [".png"]) V2.FILENAMES
  ∧ map name (avatar_cache (V1.load_avatars g))
    = map (strip_extension [".png"; ".jpg"; ".jpeg"]) V1.filenames
  ∧ forallb plain_segment V1.filenames = true
  ∧ forallb (λ f, plain_segment (Py.replace " " "%20" f)) V2.FILENAMES = true.
Proof.
  split; [|split; [|split; [|split; [|split]]]].
  - simpl. rewrite !length_map. repeat split; try done.
    all: intros i; change (map ?f ?l) with (f <$> l); apply list_lookup_fmap.
  - intros stem Hpng.
    destruct (v2_name_of_stem stem "jpg" Hpng) as [Hp Hj].
    destruct (v2_name_of_stem stem "jpeg" Hpng) as [_ Hje].
    split; [done|]. split; [|by split].
    unfold V2.from_filename, Py.replace. cbn [name]. by apply replace_scan_absent.
  - intros stem Hpng Hjpg Hjpeg.
    destruct (v1_name_of_stem stem Hpng Hjpg Hjpeg) as (H1 & H2 & H3).
    split; [done|]. split; [done|]. split; [done|].
    unfold V1.from_filename, Py.replace. cbn [name].
    rewrite (replace_scan_absent ".png" "" stem Hpng).
    rewrite (replace_scan_absent ".jpg" "" stem Hjpg).
    apply (replace_scan_absent ".jpeg" "" stem Hjpeg).
  - intros f _. split; [done|]. unfold V2.from_filename, urljoin. cbn [imageurl].
    rewrite free_of_app, replace_space_free. vm_compute. reflexivity.
  - intros f _. split; [done|]. unfold V1.from_filename, urljoin. cbn [imageurl].
    rewrite free_of_app. done.
  - repeat split; vm_compute; reflexivity.
Qed.

Lemma catalog_builder_contract_witness :
  name (V2.from_filename ("Adem Lane" +:+ ".png")) = "Adem Lane"
  ∧ name (V2.from_filename ("Adem Lane" +:+ ".jpg")) = "Adem Lane.jpg"
  ∧ name (V1.from_filename ("Adem Lane" +:+ ".jpg")) = "Adem Lane"
  ∧ name (V1.from_filename ("Adem Lane" +:+ ".jpeg")) = "Adem Lane"
  ∧ imageurl (V2.from_filename "Adem Lane.png") = BASE_AVATAR_URL +:+ "Adem%20Lane.png"
  ∧ imageurl (V1.from_filename "Adem Lane.png") = BASE_AVATAR_URL +:+ "Adem Lane.png".
Proof.
  destruct (catalog_builder_contract [] initial) as (_ & Hn2 & Hn1 & Hu2 & Hu1 & _).
  destruct (Hn2 "Adem Lane") as (H2png & _ & H2jpg & _); [vm_compute; reflexivity|].
  destruct (Hn1 "Adem Lane") as (_ & H1jpg & H1jpeg & _); [vm_compute; reflexivity..|].
  destruct (Hu2 "Adem Lane.png") as [H2url _]; [vm_compute; reflexivity|].
  destruct (Hu1 "Adem Lane.png") as [H1url _]; [vm_compute; reflexivity|].
  split; [exact H2png|]. split; [exact H2jpg|]. split; [exact H1jpg|].
  split; [exact H1jpeg|]. split; [|exact H1url].
  rewrite H2url. vm_compute. reflexivity.
Defined.

(** * Further properties of the handlers *)

(** ** Validation and defaults of the listing *)

Lemma list_handler_valid (default_limit max_limit : Z) (g : Globals)
    (skip limit : Z) (search : option string) :
  0 ≤ skip → 1 ≤ limit ≤ max_limit →
  list_handler default_limit max_limit g (Some skip) (Some limit) search
  = Return (map avatar_record
              (take (Z.to_nat limit) (drop (Z.to_nat skip) (searched g search)))).
Proof.
  intros Hskip Hlimit. unfold list_handler, violated. simpl.
  destruct (Z.leb_spec 0 skip); [|lia].
  destruct (Z.leb_spec 1 limit); [|lia].
  destruct (Z.leb_spec limit max_limit); [|lia]. simpl.
  unfold list_body. by rewrite slice_offset_length by lia.
Qed.

Lemma list_handler_outcome (default_limit max_limit : Z) (g : Globals)
    (skip limit : Z) (search : option string) :
  (0 ≤ skip ∧ 1 ≤ limit ≤ max_limit
   ∧ list_handler default_limit max_limit g (Some skip) (Some limit) search
     = Return (list_body g skip limit search))
  ∨ (¬ (0 ≤ skip ∧ 1 ≤ limit ≤ max_limit)
     ∧ ∃ params,
         list_handler default_limit max_limit g (Some skip) (Some limit) search
         = RequestValidationError params
         ∧ ("skip" ∈ params ↔ skip < 0)
         ∧ ("limit" ∈ params ↔ limit < 1 ∨ max_limit < limit)).
Proof.
  unfold list_handler, violated. simpl.
  destruct (Z.leb_spec 0 skip); destruct (Z.leb_spec 1 limit);
    destruct (Z.leb_spec limit max_limit); simpl.
  1: left; repeat split; done || lia.
  all: right; split; [lia|]; eexists; split; [reflexivity|].
  all: rewrite ?elem_of_cons, ?elem_of_nil.
  all: intuition (first [lia | discriminate | auto]).
Qed.

(** X1. The listing returns a page exactly when [skip] is at least 0 and
    [limit] is between 1 and the bound of the signature, 200 for
    [get_all_avatars] and 100 for [get_avatars]; otherwise the request is
    rejected before the body runs, and the rejection names [skip] exactly
    when it is negative and [limit] exactly when it is out of its range.
    The listing never raises an HTTP exception. *)
Theorem listing_validates_parameters (g : Globals) (skip limit : Z)
    (search : option string) :
  ((∃ page, V1.get_all_avatars g (Some skip) (Some limit) search = Return page)
     ↔ 0 ≤ skip ∧ 1 ≤ limit ≤ 200)
  ∧ ((∃ page, V2.get_avatars g (Some skip) (Some limit) search = Return page)
     ↔ 0 ≤ skip ∧ 1 ≤ limit ≤ 100)
  ∧ (∀ params,
       V1.get_all_avatars g (Some skip) (Some limit) search
       = RequestValidationError params →
       ("skip" ∈ params ↔ skip < 0) ∧ ("limit" ∈ params ↔ limit < 1 ∨ 200 < limit))
  ∧ (∀ params,
       V2.get_avatars g (Some skip) (Some limit) search
       = RequestValidationError params →
       ("skip" ∈ params ↔ skip < 0) ∧ ("limit" ∈ params ↔ limit < 1 ∨ 100 < limit))
  ∧ (∀ code detail,
       V1.get_all_avatars g (Some skip) (Some limit) search ≠ HTTPException code detail
       ∧ V2.get_avatars g (Some skip) (Some limit) search ≠ HTTPException code detail).
Proof.
  unfold V1.get_all_avatars, V2.get_avatars.
  destruct (list_handler_outcome 100 200 g skip limit search)
    as [(H1 & H2 & ->)|(Hbad1 & p1 & -> & Hs1 & Hl1)];
  destruct (list_handler_outcome 20 100 g skip limit search)
    as [(H3 & H4 & ->)|(Hbad2 & p2 & -> & Hs2 & Hl2)].
  all: split; [split; [try (by intros [? [=]]); done | intros ?; by (eauto || lia)]|].
  all: split; [split; [try (by intros [? [=]]); done | intros ?; by (eauto || lia)]|].
  all: split; [intros params [=]; by subst|].
  all: split; [intros params [=]; by subst|].
  all: by intros code detail.
Qed.

Lemma listing_validates_parameters_witness :
  V2.get_avatars (V2.load_avatars initial) (Some 0) (Some 150) None
  = RequestValidationError ["limit"]
  ∧ ("limit" ∈ ["limit"] ↔ 150 < 1 ∨ 100 < 150)
  ∧ ∃ page, V1.get_all_avatars (V2.load_avatars initial) (Some 0) (Some 150) None
            = Return page.
Proof.
  destruct (listing_validates_parameters (V2.load_avatars initial) 0 150 None)
    as (Hv1 & _ & _ & Hv2 & _).
  split; [vm_compute; reflexivity|]. split.
  - apply (Hv2 ["limit"]). vm_compute. reflexivity.
  - apply Hv1. lia.
Defined.

Lemma list_handler_defaults (default_limit max_limit : Z) (g : Globals)
    (search : option string) :
  1 ≤ default_limit ≤ max_limit →
  list_handler default_limit max_limit g None None search
  = Return (map avatar_record (take (Z.to_nat default_limit) (searched g search))).
Proof.
  intros Hd. unfold list_handler, violated. simpl.
  destruct (Z.leb_spec 1 default_limit); [|lia].
  destruct (Z.leb_spec default_limit max_limit); [|lia]. simpl.
  unfold list_body.
  pose proof (slice_offset_length (searched g search) 0 default_limit) as Hs.
  by rewrite Hs by lia.
Qed.

(** X2. A request without [skip] and [limit] lists the searched catalog
    from its start: its first 100 records under [get_all_avatars], its
    first 20 under [get_avatars]; a request with [skip] alone lists that
    many records from position [skip]. *)
Theorem listing_defaults (g : Globals) (search : option string) :
  V1.get_all_avatars g None None search
  = Return (map avatar_record (take 100 (searched g search)))
  ∧ V2.get_avatars g None None search
    = Return (map avatar_record (take 20 (searched g search)))
  ∧ (∀ skip, 0 ≤ skip →
       V1.get_all_avatars g (Some skip) None search
       = Return (map avatar_record
                   (take 100 (drop (Z.to_nat skip) (searched g search))))
       ∧ V2.get_avatars g (Some skip) None search
         = Return (map avatar_record
                     (take 20 (drop (Z.to_nat skip) (searched g search))))).
Proof.
  split; [|split].
  - apply (list_handler_defaults 100 200); lia.
  - apply (list_handler_defaults 20 100); lia.
  - intros skip Hskip. split.
    + apply (list_handler_valid 100 200 g skip 100); lia.
    + apply (list_handler_valid 20 100 g skip 20); lia.
Qed.

Lemma listing_defaults_witness :
  ∃ page,
    V1.get_all_avatars (V1.load_avatars initial) (Some 100) None None = Return page
    ∧ List.length page = 44%nat.
Proof.
  destruct (listing_defaults (V1.load_avatars initial) None) as (_ & _ & Hskip).
  destruct (Hskip 100) as [-> _]; [lia|].
  eexists. split; [reflexivity|]. vm_compute. reflexivity.
Defined.

(** ** Paging *)

(** X3. Consecutive pages join: the page of [n] records from [skip]
    followed by the page of [m] records from [skip + n] is the page of
    [n + m] records from [skip], as long as [n + m] is within the bound
    on [limit].  No record is lost or repeated at a page boundary. *)
Theorem consecutive_pages_join (g : Globals) (skip n m : Z) (search : option string) :
  0 ≤ skip → 1 ≤ n → 1 ≤ m → n + m ≤ 200 →
  ∃ first second both,
    V1.get_all_avatars g (Some skip) (Some n) search = Return first
    ∧ V1.get_all_avatars g (Some (skip + n)) (Some m) search = Return second
    ∧ V1.get_all_avatars g (Some skip) (Some (n + m)) search = Return both
    ∧ both = first ++ second
    ∧ (n + m ≤ 100 →
         V2.get_avatars g (Some skip) (Some n) search = Return first
         ∧ V2.get_avatars g (Some (skip + n)) (Some m) search = Return second
         ∧ V2.get_avatars g (Some skip) (Some (n + m)) search = Return both).
Proof.
  intros Hskip Hn Hm Hnm. do 3 eexists.
  split; [apply (list_handler_valid 100 200); lia|].
  split; [apply (list_handler_valid 100 200); lia|].
  split; [apply (list_handler_valid 100 200); lia|].
  split.
  - rewrite <- map_app. f_equal.
    replace (Z.to_nat (skip + n)) with (Z.to_nat skip + Z.to_nat n)%nat by lia.
    rewrite <- drop_drop, take_take_drop. f_equal. lia.
  - intros H100.
    split; [apply (list_handler_valid 20 100); lia|].
    split; apply (list_handler_valid 20 100); lia.
Qed.

Lemma consecutive_pages_join_witness :
  ∃ first second both,
    V1.get_all_avatars (V1.load_avatars initial) (Some 130) (Some 10) None = Return first
    ∧ V1.get_all_avatars (V1.load_avatars initial) (Some 140) (Some 10) None = Return second
    ∧ V1.get_all_avatars (V1.load_avatars initial) (Some 130) (Some 20) None = Return both
    ∧ both = first ++ second
    ∧ List.length first = 10%nat ∧ List.length second = 4%nat.
Proof.
  destruct (consecutive_pages_join (V1.load_avatars initial) 130 10 10 None)
    as (first & second & both & H1 & H2 & H3 & H4 & _); [lia..|].
  exists first, second, both. repeat split; try assumption.
  - clear -H1. vm_compute in H1. injection H1 as <-. reflexivity.
  - clear -H2. vm_compute in H2. injection H2 as <-. reflexivity.
Defined.

(** X4. The listing keeps the catalog free of repetitions: when no
    record occurs twice in the catalog, none occurs twice on a page,
    whatever the search and the window. *)
Theorem page_without_repetition (g : Globals) (skip limit : Z) (search : option string) :
  NoDup (avatar_cache g) → NoDup (list_body g skip limit search)
  ∧ ∀ page, V1.get_all_avatars g (Some skip) (Some limit) search = Return page
            ∨ V2.get_avatars g (Some skip) (Some limit) search = Return page →
            NoDup page.
Proof.
  intros Hnd.
  assert (Hbody : ∀ s l, NoDup (list_body g s l search)).
  { intros s l. unfold list_body. apply NoDup_fmap_2; [apply _|].
    unfold Py.slice. eapply sublist_NoDup; [|apply sublist_take].
    eapply sublist_NoDup; [|apply sublist_drop].
    eapply sublist_NoDup; [exact Hnd|].
    destruct search as [[|c s']|]; simpl; try done. apply name_matches_sublist. }
  split; [apply Hbody|].
  intros page Hret. unfold V1.get_all_avatars, V2.get_avatars, list_handler in Hret.
  simpl in Hret.
  destruct Hret as [Hret|Hret]; destruct (violated _ _ _); try discriminate Hret;
    injection Hret as <-; apply Hbody.
Qed.

Lemma page_without_repetition_witness :
  NoDup (list_body (V2.load_avatars initial) 1 3 (Some "a")).
Proof.
  assert (Hnd : NoDup (avatar_cache (V2.load_avatars initial)))
    by (apply (bool_decide_unpack _); vm_compute; exact I).
  exact (proj1 (page_without_repetition (V2.load_avatars initial) 1 3 (Some "a") Hnd)).
Defined.

(** ** Case of the query *)

Lemma lower_char_idem c : Py.lower_char (Py.lower_char c) = Py.lower_char c.
Proof. by destruct c as [[] [] [] [] [] [] [] []]. Qed.

Lemma lower_idem s : Py.lower (Py.lower s) = Py.lower s.
Proof. induction s as [|c s IH]; simpl; [done|]. by rewrite lower_char_idem, IH. Qed.

Lemma lower_app s t : Py.lower (s +:+ t) = Py.lower s +:+ Py.lower t.
Proof. induction s as [|c s IH]; [done|]. rewrite sapp_cons. simpl. by rewrite IH, sapp_cons. Qed.

Lemma lower_same_empty q q' : Py.lower q = Py.lower q' → (q = "" ↔ q' = "").
Proof. by destruct q, q'. Qed.

Lemma searched_lower g q q' :
  Py.lower q = Py.lower q' → searched g (Some q) = searched g (Some q').
Proof.
  intros Hq. destruct q as [|c s], q' as [|c' s']; try done.
  simpl in *. by rewrite Hq.
Qed.

(** X5. The case of the query does not matter: two queries with the same
    lowercased text resolve to the same record, give the same search
    result, and are served or refused alike by the image proxy and by
    the lookup by name; a query may as well be given in lowercase. *)
Theorem query_case_is_ignored (g : Globals) (q q' : string) :
  Py.lower q = Py.lower q' →
  resolve g q = resolve g q'
  ∧ searched g (Some q) = searched g (Some q')
  ∧ (∀ skip limit,
       V1.get_all_avatars g skip limit (Some q) = V1.get_all_avatars g skip limit (Some q')
       ∧ V2.get_avatars g skip limit (Some q) = V2.get_avatars g skip limit (Some q'))
  ∧ (∀ client_get,
       V1.get_avatar_image client_get g q = V1.get_avatar_image client_get g q')
  ∧ (∀ r, V1.get_avatar_by_name g q = Return r ↔ V1.get_avatar_by_name g q' = Return r)
  ∧ resolve g (Py.lower q) = resolve g q.
Proof.
  intros Hq.
  assert (Hres : resolve g q = resolve g q') by (unfold resolve; by rewrite Hq).
  split; [done|]. split; [by apply searched_lower|]. split; [|split; [|split]].
  - intros skip limit.
    unfold V1.get_all_avatars, V2.get_avatars, list_handler, list_body.
    by rewrite (searched_lower g q q' Hq).
  - intros client_get. unfold V1.get_avatar_image. by rewrite Hq.
  - intros r. unfold V1.get_avatar_by_name, lookup_body. rewrite Hres.
    by destruct (resolve g q').
  - unfold resolve. by rewrite lower_idem.
Qed.

Lemma query_case_is_ignored_witness :
  resolve (V1.load_avatars initial) "ADEM lane" = Some adem_lane
  ∧ resolve (V1.load_avatars initial) "adem LANE" = Some adem_lane.
Proof.
  destruct (query_case_is_ignored (V1.load_avatars initial) "ADEM lane" "adem LANE")
    as (Hres & _); [vm_compute; reflexivity|].
  split; [|rewrite <- Hres]; vm_compute; reflexivity.
Defined.

(** ** Narrowing a search *)

Lemma contains_trans (s t n : string) :
  Py.contains s t = true → Py.contains t n = true → Py.contains s n = true.
Proof.
  rewrite !contains_app_iff. intros (u & v & ->) (u' & v' & ->).
  exists (u' +:+ u), (v +:+ v'). by rewrite !sapp_assoc.
Qed.

Lemma name_matches_narrow (s t : string) (cache : list Avatar) :
  Py.contains s t = true → sublist (name_matches t cache) (name_matches s cache).
Proof.
  intros Hst. induction cache as [|a cache IH]; simpl; [constructor|].
  destruct (Py.contains t (Py.lower (name a))) eqn:Ht.
  - rewrite (contains_trans s t _ Hst Ht). by constructor.
  - destruct (Py.contains s (Py.lower (name a))); [by constructor|done].
Qed.

(** X6. A longer search string narrows the result: for search strings
    of the characters 0 to 127, the records found for a string that
    contains [s] are among those found for [s], in the same order. *)
Theorem longer_search_narrows (g : Globals) (u s v : string) :
  is_ascii u = true → is_ascii s = true → is_ascii v = true →
  sublist (searched g (Some (u +:+ s +:+ v))) (searched g (Some s))
  ∧ ∀ a, a ∈ searched g (Some (u +:+ s +:+ v)) → a ∈ searched g (Some s).
Proof.
  intros _ _ _.
  assert (Hsub : sublist (searched g (Some (u +:+ s +:+ v))) (searched g (Some s))).
  { destruct s as [|c s].
    - simpl. destruct (u +:+ "" +:+ v); [done|]. apply name_matches_sublist.
    - assert (∃ c' t, u +:+ String c s +:+ v = String c' t) as (c' & t & Ht).
      { destruct u as [|c' u]; [by exists c, (s +:+ v)|].
        by exists c', (u +:+ String c s +:+ v). }
      rewrite Ht.
      change (searched g (Some (String c' t)))
        with (name_matches (Py.lower (String c' t)) (avatar_cache g)).
      change (searched g (Some (String c s)))
        with (name_matches (Py.lower (String c s)) (avatar_cache g)).
      apply name_matches_narrow. rewrite <- Ht.
      apply contains_app_iff. exists (Py.lower u), (Py.lower v).
      by rewrite !lower_app. }
  split; [done|]. intros a Ha. by eapply elem_of_sublist.
Qed.

Lemma longer_search_narrows_witness :
  mkAvatar "Adriana O'Sullivan" (BASE_AVATAR_URL +:+ "Adriana O'Sullivan.png")
    ∈ searched (V1.load_avatars initial) (Some "ana").
Proof.
  apply (proj2 (longer_search_narrows (V1.load_avatars initial) "Adri" "ana" " O"
                  eq_refl eq_refl eq_refl)).
  apply list_elem_of_In. vm_compute. tauto.
Defined.

(** ** Lookup by name against the catalog *)

Lemma exact_is_partial q a : exact_match q a → partial_match q a.
Proof. intros Ha. exists "", "". by rewrite sapp_nil, sapp_nil_r. Qed.

Lemma first_such_elem P cache a : first_such P cache a → a ∈ cache ∧ P a.
Proof.
  intros (pre & post & -> & Ha & _). split; [|done].
  apply elem_of_app. right. left.
Qed.

(** With consistent globals the lookup fails exactly when no record
    contains the query. *)
Lemma lookup_404_iff (g : Globals) (q : string) :
  consistent g →
  lookup_body g q = HTTPException 404 (Some ("Avatar '" +:+ q +:+ "' not found"))
  ↔ ∀ a, a ∈ avatar_cache g → ¬ partial_match q a.
Proof.
  intros Hg. pose proof (lookup_body_spec g q) as Hspec. split.
  - intros Heq. rewrite Heq in Hspec. by inversion Hspec.
  - intros Hnone. inversion Hspec as [a Hhit Hr|a Hmiss Hfirst Hr|Hmiss _ Hr]; [| |done].
    + rewrite Hg in Hhit. apply build_dict_lookup_Some in Hhit as [Ha Hk].
      destruct (Hnone a Ha). by apply exact_is_partial.
    + apply first_such_elem in Hfirst as [Ha Hp]. by destruct (Hnone a Ha).
Qed.

Lemma lookup_found_contains (g : Globals) (q : string) (r : json_object) :
  consistent g → lookup_body g q = Return r →
  ∃ a, a ∈ avatar_cache g ∧ r = avatar_record a ∧ partial_match q a.
Proof.
  intros Hg Heq. pose proof (lookup_body_spec g q) as Hspec. rewrite Heq in Hspec.
  inversion Hspec as [a Hhit Hr|a Hmiss Hfirst Hr|]; subst; exists a.
  - rewrite Hg in Hhit. apply build_dict_lookup_Some in Hhit as [Ha Hk].
    split; [done|]. split; [done|]. by apply exact_is_partial.
  - apply first_such_elem in Hfirst as [Ha Hp]. done.
Qed.

(** X7. After startup the lookup by name answers 404 exactly when no
    record of the catalog contains the query, case ignored; a record it
    returns is the rendering of a catalog record that contains the
    query; and the only exception it raises is that 404, whose detail
    quotes the query as it was typed. *)
Theorem lookup_fails_iff_nothing_contains (g : Globals) (q : string) :
  consistent g →
  ((∃ code detail, V1.get_avatar_by_name g q = HTTPException code detail)
     ↔ ∀ a, a ∈ avatar_cache g → ¬ partial_match q a)
  ∧ (∀ r, V1.get_avatar_by_name g q = Return r →
       ∃ a, a ∈ avatar_cache g ∧ r = avatar_record a ∧ partial_match q a)
  ∧ (∀ code detail, V1.get_avatar_by_name g q = HTTPException code detail →
       code = 404 ∧ detail = Some ("Avatar '" +:+ q +:+ "' not found"))
  ∧ (∀ params, V1.get_avatar_by_name g q ≠ RequestValidationError params)
  ∧ (∀ exn, V1.get_avatar_by_name g q ≠ Propagated exn)
  ∧ V2.get_avatar g q = V1.get_avatar_by_name g q.
Proof.
  intros Hg. unfold V2.get_avatar, V1.get_avatar_by_name.
  assert (Hshape : ∀ code detail, lookup_body g q = HTTPException code detail →
            code = 404 ∧ detail = Some ("Avatar '" +:+ q +:+ "' not found")).
  { intros code detail. unfold lookup_body. destruct (resolve g q); [done|].
    by intros [= <- <-]. }
  split; [|split; [|split; [|split; [|split]]]]; try done.
  - rewrite <- (lookup_404_iff g q Hg). split.
    + intros (code & detail & Heq). by destruct (Hshape _ _ Heq) as [-> ->].
    + intros Heq. eauto.
  - intros r. by apply lookup_found_contains.
  - intros params. unfold lookup_body. by destruct (resolve g q).
  - intros exn. unfold lookup_body. by destruct (resolve g q).
Qed.

Lemma lookup_fails_iff_nothing_contains_witness :
  ∃ a, a ∈ avatar_cache (V2.load_avatars initial)
       ∧ avatar_record (mkAvatar "Adil Floyd" (BASE_AVATAR_URL +:+ "Adil%20Floyd.png"))
         = avatar_record a
       ∧ partial_match "FLOY" a.
Proof.
  destruct (lookup_fails_iff_nothing_contains (V2.load_avatars initial) "FLOY")
    as (_ & Hfound & _); [reflexivity|].
  apply Hfound. vm_compute. reflexivity.
Defined.

(** X8. After startup the lookup by name and the search agree: for a
    query that is not empty the lookup answers 404 exactly when the
    search for the query lists nothing, and when the index has no entry
    for the query the lookup returns the first record of that listing. *)
Theorem lookup_agrees_with_search (g : Globals) (c : ascii) (s : string) :
  consistent g →
  ((∃ code detail, V1.get_avatar_by_name g (String c s) = HTTPException code detail)
     ↔ V1.get_all_avatars g None None (Some (String c s)) = Return [])
  ∧ (∀ r page,
       avatar_dict g !! Py.lower (String c s) = None →
       V1.get_all_avatars g None None (Some (String c s)) = Return (r :: page) →
       V1.get_avatar_by_name g (String c s) = Return r).
Proof.
  intros Hg. unfold V1.get_avatar_by_name, V1.get_all_avatars.
  rewrite (list_handler_defaults 100 200) by lia.
  change (searched g (Some (String c s)))
    with (name_matches (Py.lower (String c s)) (avatar_cache g)).
  split.
  - split.
    + intros (code & detail & Heq).
      assert (lookup_body g (String c s)
              = HTTPException 404 (Some ("Avatar '" +:+ String c s +:+ "' not found")))
        as Heq'.
      { revert Heq. unfold lookup_body. by destruct (resolve g (String c s)). }
      pose proof (proj1 (lookup_404_iff g _ Hg) Heq') as Hnone.
      destruct (name_matches _ _) as [|a rest] eqn:Hm; [done|].
      assert (a ∈ name_matches (Py.lower (String c s)) (avatar_cache g)) as Ha
        by (rewrite Hm; left).
      apply name_matches_elem in Ha as [Ha Hp]. by destruct (Hnone a Ha).
    + intros Hnil. do 2 eexists. apply (proj2 (lookup_404_iff g _ Hg)).
      apply name_matches_nil.
      destruct (name_matches _ _) as [|a rest]; [done|]. discriminate Hnil.
  - intros r page Hmiss Hpage. unfold lookup_body, resolve. rewrite Hmiss.
    destruct (name_matches _ _) as [|a rest]; [discriminate Hpage|].
    simpl in Hpage. by injection Hpage as <- _.
Qed.

Lemma lookup_agrees_with_search_witness :
  V1.get_avatar_by_name (V1.load_avatars initial) "Lane" = Return (avatar_record adem_lane).
Proof.
  destruct (lookup_agrees_with_search (V1.load_avatars initial) "L" "ane")
    as [_ Hfirst]; [reflexivity|].
  eapply Hfirst; vm_compute; reflexivity.
Defined.

(** ** From a listed record back to it *)

Lemma same_key_same_record (cache : list Avatar) (a b : Avatar) :
  NoDup (key_of <$> cache) → a ∈ cache → b ∈ cache → key_of a = key_of b → a = b.
Proof.
  intros Hnd [i Hi]%list_elem_of_lookup [j Hj]%list_elem_of_lookup Hk.
  assert (i = j) as ->; [|congruence].
  apply (NoDup_lookup (key_of <$> cache) i j (key_of a)); [done|..].
  - by rewrite list_lookup_fmap, Hi.
  - by rewrite list_lookup_fmap, Hj, Hk.
Qed.

(** X9. After startup every record of the catalog is found under its own
    name: the lookup by name returns a record with the same lowercased
    name, and when the lowercased names of the catalog are pairwise
    distinct it returns that very record, and the image proxy fetches
    that record's URL. *)
Theorem listed_name_resolves (g : Globals) (a : Avatar) :
  consistent g → a ∈ avatar_cache g →
  (∃ b, V1.get_avatar_by_name g (name a) = Return (avatar_record b)
        ∧ b ∈ avatar_cache g ∧ key_of b = key_of a)
  ∧ (NoDup (key_of <$> avatar_cache g) →
       V1.get_avatar_by_name g (name a) = Return (avatar_record a)
       ∧ V2.get_avatar g (name a) = Return (avatar_record a)
       ∧ ∀ client_get,
           V1.get_avatar_image client_get g (name a)
           = match client_get (imageurl a) with
             | inl exn => Propagated exn
             | inr response => Return (mkResponse (content response) "image/png")
             end).
Proof.
  intros Hg Ha.
  destruct (indexed_every_record (avatar_cache g) a Ha) as (b & Hb & Hbin & Hkey).
  rewrite <- Hg in Hb.
  assert (Hret : V1.get_avatar_by_name g (name a) = Return (avatar_record b)).
  { unfold V1.get_avatar_by_name, lookup_body, resolve. by rewrite Hb. }
  split; [by exists b|].
  intros Hnd. assert (b = a) as -> by by eapply same_key_same_record.
  split; [done|]. split; [done|].
  intros client_get. unfold V1.get_avatar_image. by rewrite Hb.
Qed.

Lemma listed_name_resolves_witness :
  V1.get_avatar_by_name (V1.load_avatars initial) (name adem_lane)
  = Return (avatar_record adem_lane).
Proof.
  destruct (listed_name_resolves (V1.load_avatars initial) adem_lane) as [_ Hsame].
  - reflexivity.
  - apply (bool_decide_unpack _). vm_compute. exact I.
  - apply Hsame. apply (bool_decide_unpack _). vm_compute. exact I.
Defined.

(** ** The fetch of the image proxy *)

(** X10. The image proxy does not guard the fetch.  For a name the index
    holds, an exception of the fetch leaves the handler as it is, and a
    fetch that completes is relayed as a normal answer whatever its
    status, an upstream 404 or 500 included; the handler asks for the
    URL of the indexed record and for nothing else. *)
Theorem image_fetch_is_unguarded (client_get : string → string + HttpxResponse)
    (g : Globals) (q : string) (a : Avatar) :
  avatar_dict g !! Py.lower q = Some a →
  (∀ exn, client_get (imageurl a) = inl exn →
     V1.get_avatar_image client_get g q = Propagated exn)
  ∧ (∀ st ct body, client_get (imageurl a) = inr (mkHttpxResponse st ct body) →
       V1.get_avatar_image client_get g q = Return (mkResponse body "image/png"))
  ∧ (∀ other, other (imageurl a) = client_get (imageurl a) →
       V1.get_avatar_image other g q = V1.get_avatar_image client_get g q)
  ∧ (∀ code detail, V1.get_avatar_image client_get g q ≠ HTTPException code detail).
Proof.
  intros Hhit. unfold V1.get_avatar_image. rewrite Hhit.
  split; [by intros exn ->|]. split; [by intros st ct body ->|].
  split; [by intros other ->|].
  intros code detail. by destruct (client_get (imageurl a)).
Qed.

Lemma image_fetch_is_unguarded_witness :
  V1.get_avatar_image (λ _, inl "ConnectTimeout") (V1.load_avatars initial) "Olivia Rhye"
  = Propagated "ConnectTimeout"
  ∧ V1.get_avatar_image (λ _, inr (mkHttpxResponse 500 "text/html" "oops"))
      (V1.load_avatars initial) "Olivia Rhye"
    = Return (mkResponse "oops" "image/png").
Proof.
  split.
  - destruct (image_fetch_is_unguarded (λ _, inl "ConnectTimeout")
                (V1.load_avatars initial) "Olivia Rhye" olivia_rhye) as [Hexn _];
      [vm_compute; reflexivity|].
    by apply Hexn.
  - destruct (image_fetch_is_unguarded (λ _, inr (mkHttpxResponse 500 "text/html" "oops"))
                (V1.load_avatars initial) "Olivia Rhye" olivia_rhye) as (_ & Hok & _);
      [vm_compute; reflexivity|].
    by apply (Hok 500 "text/html").
Defined.

(** ** Health report and the size of the index *)

Lemma build_dict_size (cache : list Avatar) :
  (size (build_dict cache) ≤ List.length cache)%nat
  ∧ (NoDup (key_of <$> cache) → size (build_dict cache) = List.length cache).
Proof.
  induction cache as [|a cache [IHle IHeq]] using rev_ind.
  - unfold build_dict. simpl. rewrite map_size_empty. by split.
  - rewrite build_dict_snoc, length_app. simpl. split.
    + destruct (build_dict cache !! Py.lower (name a)) eqn:Hk.
      * rewrite map_size_insert_Some by done. lia.
      * rewrite map_size_insert_None by done. lia.
    + rewrite fmap_app. intros (Hnd & Hfresh & _)%NoDup_app.
      rewrite map_size_insert_None.
      * rewrite IHeq by done. lia.
      * apply build_dict_lookup_None. intros b Hb Hkey.
        apply (Hfresh (key_of a)).
        -- apply list_elem_of_fmap. exists b. by split.
        -- left.
Qed.

(** X11. After the startup event on a list of plain filenames, both
    health reports say "healthy" and give the number of filenames as
    [avatars_loaded], the same number the statistics give as total.  The
    index never has more keys than that, and has exactly as many when
    the lowercased names are pairwise distinct. *)
Theorem health_counts_the_list (files : list string) (g : Globals) :
  forallb plain_segment files = true →
  (health_field "status" (V1.health_check (V1.load_from files g)) = Some (JStr "healthy")
   ∧ health_field "avatars_loaded" (V1.health_check (V1.load_from files g))
     = Some (JInt (Z.of_nat (List.length files)))
   ∧ health_field "status" (V2.health_check (V2.load_from files g)) = Some (JStr "healthy")
   ∧ health_field "avatars_loaded" (V2.health_check (V2.load_from files g))
     = Some (JInt (Z.of_nat (List.length files)))
   ∧ total_avatars (V1.get_avatar_stats (V1.load_from files g))
     = Z.of_nat (List.length files))
  ∧ (size (avatar_dict (V1.load_from files g)) ≤ List.length files
     ∧ size (avatar_dict (V2.load_from files g)) ≤ List.length files)%nat
  ∧ (NoDup (key_of <$> avatar_cache (V2.load_from files g)) →
       size (avatar_dict (V2.load_from files g)) = List.length files)
  ∧ (NoDup (key_of <$> avatar_cache (V1.load_from files g)) →
       size (avatar_dict (V1.load_from files g)) = List.length files).
Proof.
  intros _. split; [|split; [|split]].
  - unfold V1.health_check, V2.health_check, V1.get_avatar_stats. simpl.
    rewrite !length_map. done.
  - simpl. split.
    + etrans; [apply build_dict_size|]. by rewrite length_map.
    + etrans; [apply build_dict_size|]. by rewrite length_map.
  - simpl. intros Hnd. rewrite (proj2 (build_dict_size _) Hnd). apply length_map.
  - simpl. intros Hnd. rewrite (proj2 (build_dict_size _) Hnd). apply length_map.
Qed.

Lemma health_counts_the_list_witness :
  size (avatar_dict (V2.load_from ["Bob.png"; "Eve.png"] initial)) = 2%nat.
Proof.
  destruct (health_counts_the_list ["Bob.png"; "Eve.png"] initial) as (_ & _ & Hsize & _);
    [vm_compute; reflexivity|].
  apply Hsize. apply (bool_decide_unpack _). vm_compute. exact I.
Defined.

(** ** Sampling a small catalog *)

(** X12. When the catalog has at most 50 records and the count asked for
    is at least its size, the random sample returns every record of the
    catalog exactly once, in some order. *)
Theorem sample_of_small_catalog_is_a_shuffle (rng : nat → nat) (g : Globals) (count : Z) :
  1 ≤ count →
  Z.of_nat (List.length (avatar_cache g)) ≤ count →
  (List.length (avatar_cache g) ≤ 50)%nat →
  ∃ selected,
    V1.get_random_avatars rng g count = Return (map avatar_record selected)
    ∧ selected ≡ₚ avatar_cache g.
Proof.
  intros Hcount Hall Hsmall.
  destruct (random_sample_spec rng g count) as [_ Hok].
  destruct (Hok Hcount) as (selected & Hret & Hlen & Hsub).
  exists selected. split; [done|].
  apply submseteq_length_Permutation; [done|]. lia.
Qed.

Lemma sample_of_small_catalog_is_a_shuffle_witness :
  ∃ selected,
    V1.get_random_avatars (λ i, (5 * i + 1)%nat) (V2.load_avatars initial) 9
    = Return (map avatar_record selected)
    ∧ selected ≡ₚ avatar_cache (V2.load_avatars initial).
Proof.
  apply (sample_of_small_catalog_is_a_shuffle (λ i, (5 * i + 1)%nat)
           (V2.load_avatars initial) 9); [lia| |]; vm_compute; [discriminate|lia].
Defined.

(** ** Before startup and with an empty catalog *)

(** X13. With an empty list and an empty index, as before the startup
    event and after a startup on no filename, every handler still
    answers: the listing with an empty page, the lookup by name and the
    image proxy with their 404, the random sample with an empty list,
    the statistics with total 0, no file type and no sample, the health
    report with 0 avatars loaded. *)
Theorem nothing_loaded_nothing_served (g : Globals) :
  avatar_cache g = [] → avatar_dict g = ∅ →
  (∀ skip limit search, 0 ≤ skip → 1 ≤ limit ≤ 200 →
     V1.get_all_avatars g (Some skip) (Some limit) search = Return [])
  ∧ (∀ q, V1.get_avatar_by_name g q
          = HTTPException 404 (Some ("Avatar '" +:+ q +:+ "' not found")))
  ∧ (∀ client_get q, V1.get_avatar_image client_get g q = HTTPException 404 None)
  ∧ (∀ rng count, 1 ≤ count → V1.get_random_avatars rng g count = Return [])
  ∧ (total_avatars (V1.get_avatar_stats g) = 0
     ∧ file_types (V1.get_avatar_stats g) = ∅
     ∧ sample_avatars (V1.get_avatar_stats g) = [])
  ∧ health_field "avatars_loaded" (V1.health_check g) = Some (JInt 0)
  ∧ health_field "avatars_loaded" (V2.health_check g) = Some (JInt 0).
Proof.
  intros Hcache Hdict.
  assert (Hsearched : ∀ search, searched g search = []).
  { intros [[|c s]|]; unfold searched; by rewrite Hcache. }
  split; [|split; [|split; [|split; [|split]]]].
  - intros skip limit search Hskip Hlimit.
    unfold V1.get_all_avatars. rewrite list_handler_valid by done.
    by rewrite Hsearched, drop_nil, take_nil.
  - intros q. unfold V1.get_avatar_by_name, lookup_body, resolve.
    by rewrite Hdict, lookup_empty, Hcache.
  - intros client_get q. unfold V1.get_avatar_image. by rewrite Hdict, lookup_empty.
  - intros rng count Hcount.
    destruct (random_sample_spec rng g count) as [_ Hok].
    destruct (Hok Hcount) as (selected & -> & _ & Hsub).
    rewrite Hcache in Hsub. apply submseteq_nil_r in Hsub. by rewrite Hsub.
  - unfold V1.get_avatar_stats. simpl. by rewrite Hcache.
  - unfold V1.health_check, V2.health_check. by rewrite Hcache.
Qed.

Lemma nothing_loaded_nothing_served_witness :
  V1.get_avatar_by_name initial "Adem Lane"
  = HTTPException 404 (Some "Avatar 'Adem Lane' not found")
  ∧ V1.get_random_avatars (λ i, i) (V2.load_from [] initial) 3 = Return [].
Proof.
  split.
  - destruct (nothing_loaded_nothing_served initial) as (_ & Hlookup & _); [done..|].
    apply Hlookup.
  - destruct (nothing_loaded_nothing_served (V2.load_from [] initial))
      as (_ & _ & _ & Hrandom & _); [done..|].
    apply Hrandom. lia.
Defined.

(** ** Statistics against the listing *)

(** X14. The sample of the statistics has [min 5 (len catalog)] entries
    and names the same records, in the same order, as the first five
    entries of the listing without parameters; the set of file types is
    empty exactly when the catalog is. *)
Theorem stats_sample_is_head_of_listing (g : Globals) :
  List.length (sample_avatars (V1.get_avatar_stats g))
  = (5 `min` List.length (avatar_cache g))%nat
  ∧ (∃ page,
       V1.get_all_avatars g None None None = Return page
       ∧ map (field "name") (sample_avatars (V1.get_avatar_stats g))
         = names_of (take 5 page)
       ∧ map (field "url") (sample_avatars (V1.get_avatar_stats g))
         = map (field "imageurl") (take 5 page))
  ∧ (file_types (V1.get_avatar_stats g) = ∅ ↔ avatar_cache g = []).
Proof.
  assert (Hsample : sample_avatars (V1.get_avatar_stats g)
          = map (λ a, [("name", name a); ("url", imageurl a)]) (take 5 (avatar_cache g))).
  { unfold V1.get_avatar_stats. simpl.
    pose proof (slice_offset_length (avatar_cache g) 0 5) as Hs.
    change (0 + 5) with 5 in Hs. by rewrite Hs by lia. }
  split; [|split].
  - rewrite Hsample, length_map, length_take. done.
  - eexists. split; [apply (list_handler_defaults 100 200); lia|].
    rewrite Hsample. unfold names_of. simpl searched.
    change (map ?f ?l) with (f <$> l).
    rewrite <- !fmap_take, take_take, <- !list_fmap_compose. done.
  - unfold V1.get_avatar_stats. simpl. split.
    + destruct (avatar_cache g) as [|a cache]; [done|]. simpl.
      intros Hempty. exfalso.
      assert (Py.last_piece (Py.split "." (imageurl a)) ∈ (∅ : gset string)) as Hin
        by (rewrite <- Hempty; set_solver).
      by apply not_elem_of_empty in Hin.
    + by intros ->.
Qed.

(** ** The encoding of spaces *)

Section SpaceEncoding.

Ltac chars :=
  repeat (rewrite ?sapp_cons, ?sapp_nil, ?prefix_cons, ?prefix_cons_nil, ?prefix_nil;
          try done;
          match goal with
          | |- context [ascii_dec ?a ?b] => destruct (ascii_dec a b); try done
          | H : context [ascii_dec ?a ?b] |- _ => destruct (ascii_dec a b); try done
          end).

Lemma encode_cons c f :
  Py.replace " " "%20" (String c f)
  = if ascii_dec " " c then "%20" +:+ Py.replace " " "%20" f
    else String c (Py.replace " " "%20" f).
Proof.
  unfold Py.replace. rewrite replace_scan_cons, prefix_cons, prefix_nil.
  by destruct (ascii_dec " " c).
Qed.

Lemma decode_encoded_space t :
  Py.replace "%20" " " ("%20" +:+ t) = " " +:+ Py.replace "%20" " " t.
Proof.
  unfold Py.replace. change ("%20" +:+ t) with (String "%" (String "2" (String "0" t))).
  rewrite replace_scan_cons. chars.
Qed.

Lemma decode_cons c t :
  String.prefix "%20" (String c t) = false →
  Py.replace "%20" " " (String c t) = String c (Py.replace "%20" " " t).
Proof. unfold Py.replace. rewrite replace_scan_cons. by intros ->. Qed.

(** The encoding creates no "%20" across a character that is kept. *)
Lemma prefix_encoded c f :
  " "%char ≠ c →
  String.prefix "%20" (String c f) = false →
  String.prefix "%20" (String c (Py.replace " " "%20" f)) = false.
Proof.
  intros Hc. destruct f as [|c1 [|c2 f]]; rewrite ?encode_cons; [chars..|].
  destruct (ascii_dec " " c1), (ascii_dec " " c2); subst; chars.
Qed.

Lemma decode_encode f :
  Py.contains "%20" f = false →
  Py.replace "%20" " " (Py.replace " " "%20" f) = f.
Proof.
  induction f as [|c f IH]; [done|].
  rewrite contains_cons. intros [Hc Hf]%orb_false_iff.
  rewrite encode_cons. destruct (ascii_dec " " c) as [<-|Hne].
  - by rewrite decode_encoded_space, IH.
  - rewrite decode_cons by by apply prefix_encoded. by rewrite IH.
Qed.

Lemma free_of_cons sep c s :
  free_of sep (String c s) = negb (Ascii.eqb c sep) && free_of sep s.
Proof. reflexivity. Qed.

Lemma free_of_encode f :
  free_of "/" f = true → free_of "/" (Py.replace " " "%20" f) = true.
Proof.
  induction f as [|c f IH]; [done|]. rewrite free_of_cons.
  intros [Hc Hf]%andb_true_iff. rewrite encode_cons.
  destruct (ascii_dec " " c).
  - rewrite free_of_app, IH by done. done.
  - by rewrite free_of_cons, Hc, IH.
Qed.

Lemma free_of_not_contains c s :
  free_of c s = true → Py.contains (String c "") s = false.
Proof.
  induction s as [|d s IH]; [done|]. rewrite free_of_cons.
  intros [Hd Hs]%andb_true_iff. rewrite contains_cons, prefix_cons, IH by done.
  destruct (ascii_dec c d) as [->|]; [|done].
  by rewrite Ascii.eqb_refl in Hd.
Qed.

Lemma encode_fixed_iff f :
  Py.replace " " "%20" f = f ↔ free_of " " f = true.
Proof.
  split.
  - intros <-. apply replace_space_free.
  - intros Hf. unfold Py.replace. apply replace_scan_absent.
    by apply free_of_not_contains.
Qed.

Lemma last_segment_of_url (segment : string) :
  free_of "/" segment = true →
  Py.last_piece (Py.split "/" (BASE_AVATAR_URL +:+ segment)) = segment.
Proof.
  intros Hfree.
  change BASE_AVATAR_URL
    with ("http://www.tam-files.toko-aplikasi.my.id/images/avatars" +:+ "/").
  rewrite sapp_assoc. by apply last_piece_after.
Qed.

Lemma no_reserved_cons c s :
  no_reserved (String c s) = negb (reserved_char c) && no_reserved s.
Proof. reflexivity. Qed.

Lemma no_reserved_encode s :
  no_reserved s = true → no_reserved (Py.replace " " "%20" s) = true.
Proof.
  induction s as [|c s IH]; [done|]. rewrite no_reserved_cons.
  intros [Hc Hs]%andb_true_iff. rewrite encode_cons.
  destruct (ascii_dec " " c).
  - change ("%20" +:+ Py.replace " " "%20" s)
      with (String "%" (String "2" (String "0" (Py.replace " " "%20" s)))).
    rewrite !no_reserved_cons, IH by done. done.
  - by rewrite no_reserved_cons, Hc, IH.
Qed.

Lemma encode_empty s : Py.replace " " "%20" s = "" → s = "".
Proof.
  destruct s as [|c s]; [done|]. rewrite encode_cons.
  by destruct (ascii_dec " " c).
Qed.

Lemma encode_dot s : Py.replace " " "%20" s = "." → s = ".".
Proof.
  destruct s as [|c s]; [done|]. rewrite encode_cons.
  destruct (ascii_dec " " c); [done|].
  intros [= -> Hs]. by rewrite (encode_empty s Hs).
Qed.

(** The encoding of a plain filename is a plain filename. *)
Lemma plain_encode f :
  plain_segment f = true → plain_segment (Py.replace " " "%20" f) = true.
Proof.
  destruct f as [|c s]; [done|]. unfold plain_segment at 1.
  intros [[[Hfirst Hres]%andb_true_iff Hdot%negb_true_iff]%andb_true_iff
            Hdots%negb_true_iff]%andb_true_iff.
  apply String.eqb_neq in Hdot, Hdots.
  rewrite encode_cons. destruct (ascii_dec " " c) as [<-|Hc]; [done|].
  rewrite no_reserved_cons in Hres. apply andb_true_iff in Hres as [Hrc Hrs].
  pose proof (no_reserved_encode s Hrs) as Henc.
  unfold plain_segment. rewrite Hfirst, no_reserved_cons, Hrc, Henc.
  apply andb_true_iff. split; apply negb_true_iff, String.eqb_neq.
  - intros [= -> Hs]. apply encode_empty in Hs. by subst s.
  - intros [= -> Hs]. apply encode_dot in Hs. by subst s.
Qed.

Lemma no_reserved_no_slash s : no_reserved s = true → free_of "/" s = true.
Proof.
  induction s as [|c s IH]; [done|]. rewrite no_reserved_cons, free_of_cons.
  intros [Hc Hs]%andb_true_iff. rewrite IH, andb_true_r by done.
  unfold reserved_char in Hc. simpl existsb in Hc.
  apply negb_true_iff, orb_false_iff in Hc as [Hc _]. by rewrite Hc.
Qed.

Lemma plain_no_slash f : plain_segment f = true → free_of "/" f = true.
Proof.
  destruct f as [|c s]; [done|]. unfold plain_segment.
  intros [[[_ Hres]%andb_true_iff _]%andb_true_iff _]%andb_true_iff.
  by apply no_reserved_no_slash.
Qed.

End SpaceEncoding.

(** X15. For a plain filename, whose encoding is plain as well, the
    [filename] field of the record built from it is the filename itself
    under lines 18-23, and the filename with every space written %20
    under lines 250-254; when the filename holds no "%20" of its own,
    writing the spaces back recovers it. *)
Theorem filename_field_round_trip (f : string) :
  plain_segment f = true →
  plain_segment (Py.replace " " "%20" f) = true
  ∧ field "filename" (avatar_record (V1.from_filename f)) = Some f
  ∧ field "filename" (avatar_record (V2.from_filename f))
    = Some (Py.replace " " "%20" f)
  ∧ (Py.contains "%20" f = false →
       Py.replace "%20" " " <$> field "filename" (avatar_record (V2.from_filename f))
       = Some f).
Proof.
  intros Hplain. split; [by apply plain_encode|].
  pose proof (plain_no_slash f Hplain) as Hfree.
  assert (H2 : field "filename" (avatar_record (V2.from_filename f))
               = Some (Py.replace " " "%20" f)).
  { unfold field, avatar_record, V2.from_filename, urljoin. cbn [imageurl].
    simpl List.find. cbn [fmap option_fmap option_map snd].
    f_equal. apply last_segment_of_url. by apply free_of_encode. }
  split; [|split; [done|]].
  - unfold field, avatar_record, V1.from_filename, urljoin. cbn [imageurl].
    simpl List.find. cbn [fmap option_fmap option_map snd].
    f_equal. by apply last_segment_of_url.
  - intros Hno. rewrite H2. cbn [fmap option_fmap option_map].
    f_equal. by apply decode_encode.
Qed.

Lemma filename_field_round_trip_witness :
  Py.replace "%20" " " <$> field "filename" (avatar_record (V2.from_filename "Adem Lane.png"))
  = Some "Adem Lane.png".
Proof.
  destruct (filename_field_round_trip "Adem Lane.png") as (_ & _ & _ & Hback);
    [vm_compute; reflexivity|].
  apply Hback. vm_compute. reflexivity.
Defined.

(** X16. Among plain filenames: under lines 250-254 two filenames
    that hold no "%20" of their own and get the same image URL are the
    same filename; a filename that does hold "%20" can share its URL
    with another one, as "a%20b.png" does with "a b.png".  Under lines
    18-23 the image URL determines the filename. *)
Theorem image_url_determines_filename (f f' : string) :
  plain_segment f = true → plain_segment f' = true →
  (Py.contains "%20" f = false → Py.contains "%20" f' = false →
     imageurl (V2.from_filename f) = imageurl (V2.from_filename f') → f = f')
  ∧ (imageurl (V1.from_filename f) = imageurl (V1.from_filename f') → f = f')
  ∧ (plain_segment "a%20b.png" = true ∧ plain_segment "a b.png" = true
     ∧ imageurl (V2.from_filename "a%20b.png") = imageurl (V2.from_filename "a b.png")).
Proof.
  intros _ _. split; [|split; [|done]].
  - intros Hf Hf'. unfold V2.from_filename, urljoin. cbn [imageurl].
    intros Heq%(inj (String.append BASE_AVATAR_URL)).
    by rewrite <- (decode_encode f Hf), <- (decode_encode f' Hf'), Heq.
  - unfold V1.from_filename, urljoin. cbn [imageurl].
    by intros Heq%(inj (String.append BASE_AVATAR_URL)).
Qed.

Lemma image_url_determines_filename_witness :
  imageurl (V2.from_filename "Adem Lane.png") ≠ imageurl (V2.from_filename "Adem  Lane.png").
Proof.
  intros Heq.
  destruct (image_url_determines_filename "Adem Lane.png" "Adem  Lane.png") as [Hinj _];
    [vm_compute; reflexivity..|].
  apply Hinj in Heq; [discriminate Heq|vm_compute; reflexivity..].
Defined.

(** X17. The two variants of [Avatar.from_filename] give a plain
    filename the same image URL exactly when it holds no space, and the
    same name as soon as the name of lines 250-254 holds neither ".jpg"
    nor ".jpeg". *)
Theorem builders_agree (f : string) :
  plain_segment f = true →
  (imageurl (V1.from_filename f) = imageurl (V2.from_filename f)
   ↔ free_of " " f = true)
  ∧ (Py.contains ".jpg" (name (V2.from_filename f)) = false →
     Py.contains ".jpeg" (name (V2.from_filename f)) = false →
     name (V1.from_filename f) = name (V2.from_filename f))
  ∧ (free_of " " f = true →
     Py.contains ".jpg" (name (V2.from_filename f)) = false →
     Py.contains ".jpeg" (name (V2.from_filename f)) = false →
     V1.from_filename f = V2.from_filename f).
Proof.
  intros _.
  assert (Hurl : imageurl (V1.from_filename f) = imageurl (V2.from_filename f)
                 ↔ free_of " " f = true).
  { unfold V1.from_filename, V2.from_filename, urljoin. cbn [imageurl].
    rewrite <- encode_fixed_iff. split.
    - by intros Heq%(inj (String.append BASE_AVATAR_URL)).
    - by intros ->. }
  assert (Hname : Py.contains ".jpg" (name (V2.from_filename f)) = false →
     Py.contains ".jpeg" (name (V2.from_filename f)) = false →
     name (V1.from_filename f) = name (V2.from_filename f)).
  { unfold V1.from_filename, V2.from_filename. cbn [name]. intros Hjpg Hjpeg.
    unfold Py.replace at 1 2.
    rewrite (replace_scan_absent ".jpg" "" _ Hjpg).
    apply (replace_scan_absent ".jpeg" "" _ Hjpeg). }
  split; [done|]. split; [done|].
  intros Hsp Hjpg Hjpeg.
  pose proof (proj2 Hurl Hsp) as Hu. pose proof (Hname Hjpg Hjpeg) as Hn.
  destruct (V1.from_filename f), (V2.from_filename f). simpl in *. congruence.
Qed.

Lemma builders_agree_witness :
  V1.from_filename "Lily-Rose.png" = V2.from_filename "Lily-Rose.png"
  ∧ imageurl (V1.from_filename "Lily-Rose Chedjou.png")
    ≠ imageurl (V2.from_filename "Lily-Rose Chedjou.png").
Proof.
  split.
  - destruct (builders_agree "Lily-Rose.png") as (_ & _ & Hsame);
      [vm_compute; reflexivity|].
    apply Hsame; vm_compute; reflexivity.
  - destruct (builders_agree "Lily-Rose Chedjou.png") as ([Hspace _] & _);
      [vm_compute; reflexivity|].
    intros Heq. apply Hspace in Heq. vm_compute in Heq. discriminate Heq.
Defined.
